(** * rio: inbound state edits, confirm messages and the test client

    A shallow embedding of
    - [rio/components/text_input.py] ([TextInput]),
    - [rio/components/text.py] ([Text._custom_serialize]),
    - [rio/testing.py] ([TestClient]),
    together with the properties of the session synchronisation engine
    that these files decide.

    Python objects are mutable and methods raise, so the methods are
    embedded in a state-and-exception monad in which the state survives a
    raised exception: what was mutated before the [raise] stays mutated. *)

From Stdlib Require Import Ascii String.
From stdpp Require Import gmap strings list fin_maps pretty.

Set Warnings "-register-all".
Open Scope string_scope.
Open Scope list_scope.

(** ** Wire values

    [uniserde.JsonDoc] is [dict[str, Jsonable]].  The values that travel
    between client and session are JSON values; a Python [dict] with string
    keys is a finite map. *)

Inductive json : Type :=
  | JNull
  | JBool (b : bool)
  | JInt (n : Z)
  | JStr (s : string)
  | JList (l : list json)
  | JDict (d : gmap string json).

Abbreviation JsonDoc := (gmap string json).

(** [isinstance(v, dict)] and [isinstance(v, str)]. *)
Definition is_dict (v : json) : bool :=
  match v with JDict _ => true | _ => false end.

Definition is_str (v : json) : bool :=
  match v with JStr _ => true | _ => false end.

(** Python's [v == s] for a string literal [s]: values of another type
    compare unequal. *)
Definition eq_str (v : json) (s : string) : bool :=
  match v with JStr s' => bool_decide (s' = s) | _ => false end.

(** Truth value of an object, as [not v] and [if v] take it. *)
Definition truthy (v : json) : bool :=
  match v with
  | JNull => false
  | JBool b => b
  | JInt n => negb (bool_decide (n = 0%Z))
  | JStr s => negb (bool_decide (s = ""))
  | JList l => negb (bool_decide (length l = 0))
  | JDict d => negb (bool_decide (size d = 0))
  end.

(** ** Exceptions and the monad *)

Inductive exn : Type :=
  | AssertionError
  | AttributeError
  | KeyError (key : json)
  | TypeError
  | ValueError.

Inductive outcome (A : Type) : Type :=
  | Return (a : A)
  | Raise (e : exn).
Arguments Return {A} a.
Arguments Raise {A} e.

(** A computation over a mutable state [S]. *)
Definition Py (S A : Type) : Type := S → outcome A * S.

#[global] Instance Py_ret {S} : MRet (Py S) := λ A a s, (Return a, s).

#[global] Instance Py_bind {S} : MBind (Py S) := λ A B f m s,
  match m s with
  | (Return a, s') => f a s'
  | (Raise e, s') => (Raise e, s')
  end.

Definition raise {S A} (e : exn) : Py S A := λ s, (Raise e, s).
Definition get {S} : Py S S := λ s, (Return s, s).
Definition modify {S} (f : S → S) : Py S unit := λ s, (Return tt, f s).

(** [assert cond] *)
Definition assert_ {S} (cond : bool) : Py S unit :=
  if cond then mret tt else raise AssertionError.

(** [d[key]] on a dict. *)
Definition getitem {S} (d : gmap string json) (key : string) : Py S json :=
  match d !! key with
  | Some v => mret v
  | None => raise (KeyError (JStr key))
  end.

(** [v[key]] for a string [key] on an arbitrary value: only a dict can be
    subscripted by a string. *)
Definition subscript {S} (v : json) (key : string) : Py S json :=
  match v with
  | JDict d => getitem d key
  | _ => raise TypeError
  end.

(** ** [rio/components/text_input.py] *)

Module text_input_py.

Module TextInputChangeEvent.
Record t : Type := mk { text : json }.
End TextInputChangeEvent.

Module TextInputConfirmEvent.
Record t : Type := mk { text : json }.
End TextInputConfirmEvent.

(** What an event handler is called with. *)
Inductive HandlerArg : Type :=
  | ChangeArg (e : TextInputChangeEvent.t)
  | ConfirmArg (e : TextInputConfirmEvent.t).

Section TextInput.

(** [Callable]: the handlers an application registers.  [App]: whatever
    else of the application a handler can reach. *)
Context {Callable App : Type}.

(** A [TextInput] instance.  The data attributes ([text], [label],
    [prefix_text], [suffix_text], [is_secret], [is_sensitive],
    [is_valid]) live in the instance dictionary, since a delta state
    addresses them by name; the two handlers are optional callables. *)
Record TextInput : Type := mkTextInput {
  attrs : gmap string json;
  on_change : option Callable;
  on_confirm : option Callable;
}.

(** The defaults of the dataclass fields, lines 141-150. *)
Definition TextInput_defaults : gmap string json :=
  <["text" := JStr ""]> (<["label" := JStr ""]> (<["prefix_text" := JStr ""]>
  (<["suffix_text" := JStr ""]> (<["is_secret" := JBool false]>
  (<["is_sensitive" := JBool true]> (<["is_valid" := JBool true]> ∅)))))).


(** [self.<name>]: the instance dictionary first, then the class default. *)
Definition getattr (self : TextInput) (name : string) : json :=
  default JNull ((attrs self ∪ TextInput_defaults) !! name).

Definition text (self : TextInput) : json := getattr self "text".
Definition is_sensitive (self : TextInput) : json := getattr self "is_sensitive".

(** What the effects of a message are played on: the component, the rest
    of the application, and the log of what was done, oldest first.  A
    call is logged with the component as the handler finds it. *)
Inductive Effect : Type :=
  | Applied (delta_state : JsonDoc)
  | Called (handler : Callable) (arg : HandlerArg) (seen : TextInput)
  | Refreshed.

Record World : Type := mkWorld {
  self_ : TextInput;
  app : App;
  log : list Effect;
}.

(** What a handler does when called: it may change the component and
    the application. *)
Variable invoke : Callable → HandlerArg → TextInput * App → TextInput * App.

Definition record (e : Effect) : Py World unit :=
  modify (λ w, {| self_ := self_ w; app := app w; log := log w ++ [e] |}).

Definition get_self : Py World TextInput := λ w, (Return (self_ w), w).

(** The instance dictionary after the attributes named in [delta_state]
    were assigned. *)
Definition store (delta_state : JsonDoc) (self : TextInput) : TextInput :=
  {| attrs := delta_state ∪ attrs self;
     on_change := on_change self;
     on_confirm := on_confirm self |}.

(** Modelled from the spec: [_apply_delta_state_from_frontend] is
    inherited from the fundamental component, which is not among the
    sources.  Section 4.4: "the delta is applied to the component's
    attribute store"; section 4.2: the whole delta is applied at once. *)
Definition _apply_delta_state_from_frontend (delta_state : JsonDoc) : Py World unit :=
  modify (λ w,
    {| self_ := store delta_state (self_ w); app := app w; log := log w |}) ;;
  record (Applied delta_state).

(** Modelled from the spec: [call_event_handler] is inherited from the
    component base class, which is not among the sources.  Section 4.4:
    "Both handler kinds are optional callables; omission is a no-op,
    never an error", and an invoked handler "runs to completion". *)
Definition call_event_handler (handler : option Callable) (arg : HandlerArg)
    : Py World unit :=
  match handler with
  | None => mret tt
  | Some h =>
      self ← get_self;
      record (Called h arg self) ;;
      modify (λ w,
        let r := invoke h arg (self_ w, app w) in
        {| self_ := r.1; app := r.2; log := log w |})
  end.

(** Modelled from the spec: [Session._refresh] is not among the sources.
    Here only the fact that a refresh was requested matters. *)
Definition session_refresh : Py World unit := record Refreshed.

(** Lines 152-161. *)
Definition _validate_delta_state_from_frontend (delta_state : JsonDoc) : Py World unit :=
  self ← get_self;
  (if negb (bool_decide (dom delta_state ⊆ ({["text"]} : gset string)))
   then raise AssertionError else mret tt) ;;
  (if bool_decide ("text" ∈ dom delta_state) && negb (truthy (is_sensitive self))
   then raise AssertionError else mret tt).

(** Lines 163-178. *)
Definition _call_event_handlers_for_delta_state (delta_state : JsonDoc) : Py World unit :=
  match delta_state !! "text" with
  | None => mret tt
  | Some new_value =>
      assert_ (is_str new_value) ;;
      self ← get_self;
      call_event_handler (on_change self)
        (ChangeArg (TextInputChangeEvent.mk new_value))
  end ;;
  _apply_delta_state_from_frontend delta_state.

(** Lines 180-203. *)
Definition _on_message (msg : json) : Py World unit :=
  assert_ (is_dict msg) ;;
  v ← subscript msg "text";
  _apply_delta_state_from_frontend {["text" := v]} ;;
  self ← get_self;
  call_event_handler (on_change self)
    (ChangeArg (TextInputChangeEvent.mk (text self))) ;;
  self ← get_self;
  call_event_handler (on_confirm self)
    (ConfirmArg (TextInputConfirmEvent.mk (text self))) ;;
  session_refresh.

(** Modelled from the spec: the dispatcher's handling of a state-edit
    delta lives in the session, which is not among the sources.  Section
    4.4: the delta is "validated by the Delta Codec", then the handlers
    run and the delta is applied. *)
Definition handle_state_edit (delta_state : JsonDoc) : Py World unit :=
  _validate_delta_state_from_frontend delta_state ;;
  _call_event_handlers_for_delta_state delta_state.

(** *** What a run looks like

    The component and application a handler leaves behind, and the log
    entries its call makes; nothing when the handler is [None]. *)
Definition handled (handler : option Callable) (arg : HandlerArg)
    (s : TextInput * App) : TextInput * App :=
  match handler with
  | Some h => invoke h arg s
  | None => s
  end.

Definition calls (handler : option Callable) (arg : HandlerArg)
    (seen : TextInput) : list Effect :=
  match handler with
  | Some h => [Called h arg seen]
  | None => []
  end.

End TextInput.

Arguments TextInput Callable : clear implicits.
Arguments World Callable App : clear implicits.
Arguments Effect Callable : clear implicits.

End text_input_py.

(** ** [rio/components/text.py] *)

Module text_py.

Section Text.

(** [rio.TextStyle] and [rio.Session] are not among the sources, and
    neither are [TextStyle._serialize] and the [_text_align] property of
    [Text]: they are taken as given. *)
Context {TextStyle Session : Type}.
Variable TextStyle_serialize : TextStyle → Session → json.

(** The union type of line 55: a preset name or a style object. *)
Inductive Style : Type :=
  | Preset (name : string)
  | Custom (style : TextStyle).

Record Text : Type := mkText {
  text : string;
  selectable : bool;
  style : Style;
  justify : string;
  session : Session;
}.

Variable _text_align : Text → json.

(** Lines 58-69. *)
Definition _custom_serialize (self : Text) : JsonDoc :=
  let style :=
    match style self with
    | Preset name => JStr name
    | Custom o => TextStyle_serialize o (session self)
    end in
  <["style" := style]> (<["text_align" := _text_align self]> ∅).

(** Lines 71-77.  [details] is what [super().get_debug_details()]
    returned; the base class is not among the sources. *)
Definition get_debug_details (details : gmap string json) (self : Text)
    : gmap string json :=
  <["align_x" := _text_align self]> details.

(** Lines 80-83: the text that [__repr__] shows. *)
Definition shown_text (self : Text) : string :=
  if decide (40 < String.length (text self))
  then substring 0 40 (text self) +:+ "..."
  else text self.

(** Lines 79-85.  [type_name] is [type(self).__name__], [_id] the
    component's identifier and [repr] the builtin on strings, which
    [{text!r}] applies. *)
Variable _id : Text → Z.
Variable repr : string → string.

Definition __repr__ (type_name : string) (self : Text) : string :=
  "<" +:+ type_name +:+ " id:" +:+ pretty (_id self) +:+ " text:"
  +:+ repr (shown_text self) +:+ ">".

End Text.

Arguments Style TextStyle : clear implicits.
Arguments Text TextStyle Session : clear implicits.

End text_py.

(** ** [rio/testing.py] *)

Module testing_py.

(** Exceptions without state, for the read-only properties. *)
#[global] Instance outcome_ret : MRet outcome := λ A a, Return a.

#[global] Instance outcome_bind : MBind outcome := λ A B f m,
  match m with
  | Return a => f a
  | Raise e => Raise e
  end.

(** *** The builtin [int(s)] on a string

    Surrounding whitespace is dropped, one sign is allowed, and the digits
    may be grouped by single underscores.  Only ASCII is covered: there
    the whitespace that [int] drops is the tab, the line feed, the
    vertical tab, the form feed, the carriage return and the space. *)

Definition is_space (a : ascii) : bool :=
  let n := nat_of_ascii a in
  (Nat.leb 9 n && Nat.leb n 13) || Nat.eqb n 32.

Fixpoint lstrip (s : string) : string :=
  match s with
  | String a rest => if is_space a then lstrip rest else s
  | EmptyString => s
  end.

Definition strip (s : string) : string :=
  String.rev (lstrip (String.rev (lstrip s))).

Fixpoint digits (acc : Z) (after_digit : bool) (s : string) : option Z :=
  match s with
  | EmptyString => if after_digit then Some acc else None
  | String a rest =>
      match Ascii.is_nat a with
      | Some d => digits (10 * acc + Z.of_nat d) true rest
      | None =>
          if bool_decide (a = "_"%char) && after_digit
          then digits acc false rest
          else None
      end
  end.

Definition int_ (s : string) : outcome Z :=
  let parsed :=
    match strip s with
    | String "+" rest => digits 0 false rest
    | String "-" rest => Z.opp <$> digits 0 false rest
    | body => digits 0 false body
    end in
  match parsed with
  | Some n => Return n
  | None => Raise ValueError
  end.

(** Strings without whitespace: [strip] leaves them as they are. *)
Definition spaceless (s : string) : Prop :=
  Forall (λ a, is_space a = false) (list_ascii_of_string s).


Section TestClient.

(** [rio.Component] instances are compared and hashed by identity;
    [_id] is the identifier the session gave the component. *)
Context `{Countable Component}.
Variable _id : Component → Z.

(** The session's dirty set is a [set], or an [OrderedSet] once the
    client replaced it. *)
Inductive DirtySet : Type :=
  | PlainSet (s : gset Component)
  | OrderedSet (l : list Component).

Definition dirty_elements (d : DirtySet) : list Component :=
  match d with
  | PlainSet s => elements s
  | OrderedSet l => l
  end.

(** What [testing.py] reads and writes of [rio.Session]. *)
Record Session : Type := mkSession {
  _weak_components_by_id : gmap Z Component;
  _root_component : Component;
  _dirty_components : DirtySet;
}.

(** Modelled from the spec: [MessageRecorderTransport] is not among the
    sources.  Section 2: a transport is "send(message), and delivery of
    inbound messages to the Session", here an "in-memory recorder": it
    keeps what was sent, oldest first, and the responses queued for the
    session, oldest first. *)
Record MessageRecorderTransport : Type := mkTransport {
  sent_messages : list JsonDoc;
  queued_responses : list JsonDoc;
}.

Record TestClient : Type := mkTestClient {
  _user_settings : JsonDoc;
  _active_url : string;
  _use_ordered_dirty_set : bool;
  _session : option Session;
  _transport : MessageRecorderTransport;
  _first_refresh_completed : bool;
}.

(** Lines 47-90; the application server built there is not modelled. *)
Definition __init__ (user_settings : JsonDoc) (active_url : string)
    (use_ordered_dirty_set : bool) : TestClient :=
  {| _user_settings := user_settings;
     _active_url := active_url;
     _use_ordered_dirty_set := use_ordered_dirty_set;
     _session := None;
     _transport := {| sent_messages := []; queued_responses := [] |};
     _first_refresh_completed := false |}.

Definition set_transport (t : MessageRecorderTransport) (c : TestClient) : TestClient :=
  {| _user_settings := _user_settings c;
     _active_url := _active_url c;
     _use_ordered_dirty_set := _use_ordered_dirty_set c;
     _session := _session c;
     _transport := t;
     _first_refresh_completed := _first_refresh_completed c |}.

Definition set_session (s : Session) (c : TestClient) : TestClient :=
  {| _user_settings := _user_settings c;
     _active_url := _active_url c;
     _use_ordered_dirty_set := _use_ordered_dirty_set c;
     _session := Some s;
     _transport := _transport c;
     _first_refresh_completed := _first_refresh_completed c |}.

(** [self._first_refresh_completed.set()] *)
Definition set_first_refresh_completed (c : TestClient) : TestClient :=
  {| _user_settings := _user_settings c;
     _active_url := _active_url c;
     _use_ordered_dirty_set := _use_ordered_dirty_set c;
     _session := _session c;
     _transport := _transport c;
     _first_refresh_completed := true |}.

(** [self._transport.queue_response(response)] *)
Definition queue_response (response : JsonDoc) : Py TestClient unit :=
  modify (λ c, set_transport
    {| sent_messages := sent_messages (_transport c);
       queued_responses := queued_responses (_transport c) ++ [response] |} c).

(** The acknowledgment built in lines 95-99. *)
Definition acknowledgment (id : json) : JsonDoc :=
  <["jsonrpc" := JStr "2.0"]> (<["id" := id]> (<["result" := JNull]> ∅)).

(** Lines 92-103. *)
Definition _process_sent_message (message : JsonDoc) : Py TestClient unit :=
  (if bool_decide ("id" ∈ dom message)
   then id ← getitem message "id"; queue_response (acknowledgment id)
   else mret tt) ;;
  method ← getitem message "method";
  if eq_str method "updateComponentStates"
  then modify set_first_refresh_completed
  else mret tt.

(** Modelled from the spec: [MessageRecorderTransport.send], see above.
    The transport was built with
    [process_sent_message=self._process_sent_message] (lines 87-89): a
    message the session sends is recorded and handed to that callback. *)
Definition send (message : JsonDoc) : Py TestClient unit :=
  modify (λ c, set_transport
    {| sent_messages := sent_messages (_transport c) ++ [message];
       queued_responses := queued_responses (_transport c) |} c) ;;
  _process_sent_message message.

Fixpoint send_all (messages : list JsonDoc) : Py TestClient unit :=
  match messages with
  | [] => mret tt
  | message :: rest => send message ;; send_all rest
  end.

(** [await self._first_refresh_completed.wait()].  While the event is
    not set the client is suspended and the session runs: it sends its
    next message.  [Suspended] is a wait that is never resumed, the
    session having nothing left to send. *)
Inductive awaited : Type := Resumed | Suspended.

Fixpoint wait (pending : list JsonDoc) : Py TestClient awaited :=
  c ← get;
  if _first_refresh_completed c then mret Resumed
  else match pending with
       | [] => mret Suspended
       | message :: rest => send message ;; wait rest
       end.

(** Lines 105-126.  [create_session] is not among the sources: it is
    given by the session it returns and by the messages this session
    sends before [create_session] returns ([during]); [later] are the
    messages it sends afterwards. *)
Definition __aenter__ (session : Session) (during later : list JsonDoc)
    : Py TestClient awaited :=
  send_all during ;;
  modify (set_session session) ;;
  self ← get;
  (if _use_ordered_dirty_set self
   then modify (set_session
          {| _weak_components_by_id := _weak_components_by_id session;
             _root_component := _root_component session;
             _dirty_components :=
               OrderedSet (dirty_elements (_dirty_components session)) |})
   else mret tt) ;;
  wait later.

(** Lines 177-181, the [session] property. *)
Definition session (self : TestClient) : outcome Session :=
  match _session self with
  | Some s => Return s
  | None => Raise AssertionError
  end.

(** One round of the comprehension of lines 151-157: the condition, then
    the key, then the value. *)
Definition state_change (self : TestClient) (acc : gmap Component json)
    (item : string * json) : outcome (gmap Component json) :=
  let '(component_id, delta) := item in
  i ← int_ component_id;
  s ← session self;
  if bool_decide (i ≠ _id (_root_component s)) then
    s ← session self;
    i ← int_ component_id;
    match _weak_components_by_id s !! i with
    | Some component => Return (<[component := delta]> acc)
    | None => Raise (KeyError (JInt i))
    end
  else Return acc.

Fixpoint state_changes (self : TestClient) (acc : gmap Component json)
    (items : list (string * json)) : outcome (gmap Component json) :=
  match items with
  | [] => Return acc
  | item :: rest =>
      acc' ← state_change self acc item;
      state_changes self acc' rest
  end.

(** [d.items()].  A dict iterates in insertion order, the finite map in
    an order of its own; the order decides only which of two keys that
    resolve to one component is kept and which of several errors comes
    first. *)
Definition items (v : json) : outcome (list (string * json)) :=
  match v with
  | JDict d => Return (map_to_list d)
  | _ => Raise AttributeError
  end.

Definition getitem_ (v : json) (key : string) : outcome json :=
  match v with
  | JDict d =>
      match d !! key with
      | Some x => Return x
      | None => Raise (KeyError (JStr key))
      end
  | _ => Raise TypeError
  end.

(** Lines 150-157: what is returned for the message the loop stops at. *)
Definition changes_in (self : TestClient) (message : JsonDoc)
    : outcome (gmap Component json) :=
  params ← getitem_ (JDict message) "params";
  delta_states ← getitem_ params "deltaStates";
  its ← items delta_states;
  state_changes self ∅ its.

(** Lines 144-159, on the messages newest first. *)
Fixpoint last_changes_in (self : TestClient) (messages : list JsonDoc)
    : outcome (gmap Component json) :=
  match messages with
  | [] => Return ∅
  | message :: rest =>
      method ← getitem_ (JDict message) "method";
      if eq_str method "updateComponentStates"
      then changes_in self message
      else last_changes_in self rest
  end.

Definition _last_component_state_changes (self : TestClient)
    : outcome (gmap Component json) :=
  last_changes_in self (reverse (sent_messages (_transport self))).

(** Lines 140-142. *)
Definition _last_updated_components (self : TestClient) : outcome (gset Component) :=
  changes ← _last_component_state_changes self;
  Return (dom changes).

(** *** Outbound messages, for stating what is selected *)

(** A message is an envelope with a method name (section 3). *)
Definition has_method (message : JsonDoc) : Prop := is_Some (message !! "method").

Definition is_update (message : JsonDoc) : bool :=
  match message !! "method" with
  | Some method => eq_str method "updateComponentStates"
  | None => false
  end.

(** The most recent [updateComponentStates] message among those sent. *)
Definition last_update (sent : list JsonDoc) : option JsonDoc :=
  last (filter (λ message, is_update message = true) sent).

(** The acknowledgments a sent message makes the client queue. *)
Definition acks (message : JsonDoc) : list JsonDoc :=
  match message !! "id" with
  | Some id => [acknowledgment id]
  | None => []
  end.

(** The event is set only once an update was sent. *)
Definition flag_sound (c : TestClient) : Prop :=
  _first_refresh_completed c = true →
  ∃ m, m ∈ sent_messages (_transport c) ∧ is_update m = true.

(** The session the client holds once [__aenter__] went past line 122. *)
Definition entered_session (ordered : bool) (s : Session) : Session :=
  if ordered
  then {| _weak_components_by_id := _weak_components_by_id s;
          _root_component := _root_component s;
          _dirty_components := OrderedSet (dirty_elements (_dirty_components s)) |}
  else s.

(** The [deltaStates] a message carries. *)
Definition delta_states_of (message : JsonDoc) : option (gmap string json) :=
  match message !! "params" with
  | Some (JDict params) =>
      match params !! "deltaStates" with
      | Some (JDict delta_states) => Some delta_states
      | _ => None
      end
  | _ => None
  end.

(** The component a key of [deltaStates] stands for, unless it is the
    key of the root component. *)
Definition resolves (self : TestClient) (component_id : string)
    (component : Component) : Prop :=
  ∃ i s, int_ component_id = Return i ∧ _session self = Some s ∧
         i ≠ _id (_root_component s) ∧
         _weak_components_by_id s !! i = Some component.


(** *** Session creation *)

(** Modelled from the spec: the component tree is not among the sources.
    Section 3: a component is "a node with: a process-unique identifier",
    the tree "owns the graph of component instances". *)
Inductive ComponentTree : Type :=
  | Node (component : Component) (children : list ComponentTree).

Fixpoint components (tree : ComponentTree) : list Component :=
  match tree with
  | Node component children => component :: flat_map components children
  end.

Definition root (tree : ComponentTree) : Component :=
  match tree with Node component _ => component end.

(** The full attribute set of a component, as it goes over the wire. *)
Variable attributes : Component → JsonDoc.

(** Modelled from the spec: section 6, the outbound message
    [{"jsonrpc":"2.0", "method":"updateComponentStates",
      "params":{"deltaStates": {"<component-id>": {...}, ...}}}]. *)
Definition updateComponentStates (delta_states : gmap string json) : JsonDoc :=
  <["jsonrpc" := JStr "2.0"]> (<["method" := JStr "updateComponentStates"]>
  (<["params" := JDict (<["deltaStates" := JDict delta_states]> ∅)]> ∅)).

(** Modelled from the spec: section 6, the initial full sync "uses the
    same method with every live component's full attribute set". *)
Definition full_state (tree : ComponentTree) : gmap string json :=
  list_to_map ((λ c, (pretty (_id c), JDict (attributes c))) <$> components tree).

(** Modelled from the spec: [create_session] is not among the sources.
    Section 4.5: it "builds the root component, performs an initial full
    rebuild (the entire tree is dirty), and sends one outbound message
    containing the full initial state before returning".  The session it
    returns, and the messages it sends before returning. *)
Definition create_session (tree : ComponentTree) : Session :=
  {| _weak_components_by_id :=
       list_to_map ((λ c, (_id c, c)) <$> components tree);
     _root_component := root tree;
     _dirty_components := PlainSet ∅ |}.

Definition create_session_sends (tree : ComponentTree) : list JsonDoc :=
  [updateComponentStates (full_state tree)].

(** *** The remaining properties and methods of the client *)



(** [type(component)], and the two methods of lines 189 and 194 that are
    not among the sources: the session's user root component, and the
    components of a tree in the order [_iter_component_tree] yields them. *)
Context `{EqDecision ComponentType}.
Variable type_of : Component → ComponentType.
Variable _get_user_root_component : Session → Component.
Variable _iter_component_tree : Component → list Component.

(** Lines 187-189. *)
Definition root_component (self : TestClient) : outcome Component :=
  s ← session self;
  Return (_get_user_root_component s).

(** Lines 191-196: everything the generator yields. *)
Definition get_components (self : TestClient) (component_type : ComponentType)
    : outcome (list Component) :=
  root_component ← root_component self;
  Return (filter (λ component, type_of component = component_type)
            (_iter_component_tree root_component)).

(** Lines 198-202: [next] of the generator, [StopIteration] turned into
    an [AssertionError]. *)
Definition get_component (self : TestClient) (component_type : ComponentType)
    : outcome Component :=
  yielded ← get_components self component_type;
  match yielded with
  | component :: _ => Return component
  | [] => Raise AssertionError
  end.

End TestClient.

Arguments TestClient Component {_ _}.
Arguments Session Component {_ _}.
Arguments ComponentTree Component : clear implicits.

End testing_py.

(** ** A small application, to run the model on

    Two kinds of handler: one remembers the text it was called with, the
    other overwrites the text of the input it is registered on. *)

Module example.
Import text_input_py.

Inductive Handler : Type :=
  | Remember
  | Overwrite (s : string).

Definition arg_text (arg : HandlerArg) : json :=
  match arg with
  | ChangeArg e => TextInputChangeEvent.text e
  | ConfirmArg e => TextInputConfirmEvent.text e
  end.

Definition invoke (h : Handler) (arg : HandlerArg)
    (s : TextInput Handler * list json) : TextInput Handler * list json :=
  match h with
  | Remember => (s.1, s.2 ++ [arg_text arg])
  | Overwrite new => (store {["text" := JStr new]} s.1, s.2)
  end.

(** An input showing ["ab"] with both handlers registered. *)
Definition input : TextInput Handler :=
  {| attrs := <["text" := JStr "ab"]> TextInput_defaults;
     on_change := Some Remember;
     on_confirm := Some Remember |}.

Definition world : World Handler (list json) :=
  {| self_ := input; app := []; log := [] |}.


Definition insensitive : World Handler (list json) :=
  {| self_ := {| attrs := <["is_sensitive" := JBool false]> TextInput_defaults;
                 on_change := Some Remember; on_confirm := None |};
     app := []; log := [] |}.

(** A tree of three components, identified by name. *)
Definition component_id (name : string) : Z :=
  if bool_decide (name = "root") then 1
  else if bool_decide (name = "column") then 2
  else if bool_decide (name = "input") then 3
  else 0.

Definition component_attributes (name : string) : JsonDoc :=
  if bool_decide (name = "input") then
    <["text" := JStr "ab"]> (<["is_sensitive" := JBool true]> ∅)
  else if bool_decide (name = "column") then <["spacing" := JInt 1]> ∅
  else ∅.

Definition tree : testing_py.ComponentTree string :=
  testing_py.Node "root" [testing_py.Node "column" [testing_py.Node "input" []]].

(** A client some way into a test: two updates were sent, then a message
    with another method. *)
Definition older_update : JsonDoc :=
  testing_py.updateComponentStates
    (<["2" := JDict (<["spacing" := JInt 2]> ∅)]> ∅).

Definition newer_update : JsonDoc :=
  testing_py.updateComponentStates
    (<["1" := JDict ∅]> (<["3" := JDict (<["text" := JStr "abc"]> ∅)]> ∅)).

Definition other_message : JsonDoc :=
  <["jsonrpc" := JStr "2.0"]> (<["method" := JStr "setTitle"]>
  (<["params" := JDict (<["title" := JStr "unit test"]> ∅)]>
  (<["id" := JInt 7]> ∅))).

Definition client : testing_py.TestClient string :=
  {| testing_py._user_settings := ∅;
     testing_py._active_url := "/";
     testing_py._use_ordered_dirty_set := false;
     testing_py._session := Some (testing_py.create_session component_id tree);
     testing_py._transport :=
       {| testing_py.sent_messages := [older_update; newer_update; other_message];
          testing_py.queued_responses := [] |};
     testing_py._first_refresh_completed := true |}.

(** An input with a change handler only. *)
Definition listening : World Handler (list json) :=
  {| self_ := {| attrs := <["text" := JStr "ab"]> TextInput_defaults;
                 on_change := Some Remember; on_confirm := None |};
     app := []; log := [] |}.

(** Two texts of more than forty characters that differ in the tail. *)
Definition long_text (tail : string) : text_py.Text unit unit :=
  {| text_py.text := "The quick brown fox jumps over the lazy dog" +:+ tail;
     text_py.selectable := true;
     text_py.style := text_py.Preset "text";
     text_py.justify := "left";
     text_py.session := tt |}.

(** A message without a method, as a response is, and clients that sent
    one, or an update without parameters, last. *)
Definition response : JsonDoc :=
  <["jsonrpc" := JStr "2.0"]> (<["id" := JInt 7]> (<["result" := JNull]> ∅)).

Definition update_without_params : JsonDoc :=
  <["jsonrpc" := JStr "2.0"]> (<["method" := JStr "updateComponentStates"]> ∅).

Definition client_that_sent (sent : list JsonDoc) : testing_py.TestClient string :=
  {| testing_py._user_settings := ∅;
     testing_py._active_url := "/";
     testing_py._use_ordered_dirty_set := false;
     testing_py._session := Some (testing_py.create_session component_id tree);
     testing_py._transport :=
       {| testing_py.sent_messages := sent;
          testing_py.queued_responses := [] |};
     testing_py._first_refresh_completed := true |}.

(** The deltas of [newer_update], by component. *)
Definition newer_delta (name : string) : json :=
  if bool_decide (name = "input") then JDict (<["text" := JStr "abc"]> ∅)
  else JDict ∅.

End example.

(** * Properties *)

(** ** Running the monad *)

Lemma bind_Return {S A B} (m : Py S A) (f : A → Py S B) s a s' :
  m s = (Return a, s') → (m ≫= f) s = f a s'.
Proof. intros Hm. unfold mbind, Py_bind. by rewrite Hm. Qed.

Lemma bind_Raise {S A B} (m : Py S A) (f : A → Py S B) s e s' :
  m s = (Raise e, s') → (m ≫= f) s = (Raise e, s').
Proof. intros Hm. unfold mbind, Py_bind. by rewrite Hm. Qed.

Lemma assert_true {S} (s : S) : assert_ true s = (Return tt, s).
Proof. reflexivity. Qed.

Lemma assert_false {S} (s : S) : assert_ false s = (Raise AssertionError, s).
Proof. reflexivity. Qed.

Lemma getitem_Some {S} (d : gmap string json) key v (s : S) :
  d !! key = Some v → getitem d key s = (Return v, s).
Proof. intros Hd. unfold getitem. by rewrite Hd. Qed.

Lemma getitem_None {S} (d : gmap string json) key (s : S) :
  d !! key = None → getitem d key s = (Raise (KeyError (JStr key)), s).
Proof. intros Hd. unfold getitem. by rewrite Hd. Qed.

Section TextInput_properties.
Import text_input_py.
Context {Callable App : Type}.
Variable invoke : Callable → HandlerArg → TextInput Callable * App → TextInput Callable * App.
Implicit Types (w : World Callable App) (self : TextInput Callable)
  (delta_state d : JsonDoc) (v : json).

Lemma world_eta w : {| self_ := self_ w; app := app w; log := log w |} = w.
Proof. by destruct w. Qed.

Lemma get_self_run w : get_self w = (Return (self_ w), w).
Proof. reflexivity. Qed.

Lemma apply_run delta_state w :
  _apply_delta_state_from_frontend delta_state w =
    (Return tt,
     {| self_ := store delta_state (self_ w); app := app w;
        log := log w ++ [Applied delta_state] |}).
Proof. reflexivity. Qed.

Lemma call_run handler arg w :
  call_event_handler invoke handler arg w =
    (Return tt,
     {| self_ := (handled invoke handler arg (self_ w, app w)).1;
        app := (handled invoke handler arg (self_ w, app w)).2;
        log := log w ++ calls handler arg (self_ w) |}).
Proof.
  destruct handler as [h|]; cbn.
  - reflexivity.
  - by rewrite app_nil_r, world_eta.
Qed.

Lemma refresh_run w :
  session_refresh w =
    (Return tt, {| self_ := self_ w; app := app w; log := log w ++ [Refreshed] |}).
Proof. reflexivity. Qed.

(** Reading [text] back after it was stored. *)
Lemma text_store v self : text (store {["text" := v]} self) = v.
Proof.
  unfold text, getattr, store; cbn.
  by rewrite <- (assoc_L (∪)), <- insert_union_singleton_l, lookup_insert_eq.
Qed.

Lemma store_attrs_lookup delta_state self key v :
  delta_state !! key = Some v → attrs (store delta_state self) !! key = Some v.
Proof. intros Hk. cbn. by apply lookup_union_Some_l. Qed.

Lemma store_attrs_other delta_state self key :
  delta_state !! key = None →
  attrs (store delta_state self) !! key = attrs self !! key.
Proof. intros Hk. cbn. by rewrite lookup_union_r. Qed.

(** What [_on_message] does with a dict that has a ["text"] entry. *)
Lemma on_message_run d v w :
  d !! "text" = Some v →
  let self1 := store {["text" := v]} (self_ w) in
  let change := ChangeArg (TextInputChangeEvent.mk (text self1)) in
  let s2 := handled invoke (on_change self1) change (self1, app w) in
  let confirm := ConfirmArg (TextInputConfirmEvent.mk (text s2.1)) in
  let s3 := handled invoke (on_confirm s2.1) confirm s2 in
  _on_message invoke (JDict d) w =
    (Return tt,
     {| self_ := s3.1; app := s3.2;
        log := log w ++ [Applied {["text" := v]}] ++
               calls (on_change self1) change self1 ++
               calls (on_confirm s2.1) confirm s2.1 ++ [Refreshed] |}).
Proof.
  intros Hd self1 change s2 confirm s3.
  unfold _on_message.
  erewrite bind_Return by apply assert_true.
  erewrite bind_Return by (by apply getitem_Some).
  erewrite bind_Return by apply apply_run.
  erewrite bind_Return by apply get_self_run.
  erewrite bind_Return by apply call_run.
  erewrite bind_Return by apply get_self_run.
  erewrite bind_Return by apply call_run.
  rewrite refresh_run. cbn [self_ app log].
  fold self1. fold change.
  replace (handled invoke (on_change self1) change (self1, app w)) with s2 by done.
  rewrite <- surjective_pairing. fold confirm. fold s3.
  by rewrite <- !(assoc_L (++)).
Qed.

Lemma validate_run delta_state w :
  _validate_delta_state_from_frontend delta_state w =
    (if bool_decide (dom delta_state ⊆ ({["text"]} : gset string))
     then if bool_decide ("text" ∈ dom delta_state)
             && negb (truthy (is_sensitive (self_ w)))
          then Raise AssertionError else Return tt
     else Raise AssertionError, w).
Proof.
  unfold _validate_delta_state_from_frontend.
  erewrite bind_Return by apply get_self_run.
  destruct (bool_decide (dom delta_state ⊆ _)); cbn [negb].
  - erewrite bind_Return by reflexivity.
    by destruct (bool_decide ("text" ∈ dom delta_state)
                 && negb (truthy (is_sensitive (self_ w)))).
  - by erewrite bind_Raise.
Qed.

Lemma handlers_for_delta_run delta_state w :
  _call_event_handlers_for_delta_state invoke delta_state w =
    match delta_state !! "text" with
    | Some (JStr s) =>
        let arg := ChangeArg (TextInputChangeEvent.mk (JStr s)) in
        let s1 := handled invoke (on_change (self_ w)) arg (self_ w, app w) in
        (Return tt,
         {| self_ := store delta_state s1.1; app := s1.2;
            log := log w ++ calls (on_change (self_ w)) arg (self_ w) ++
                   [Applied delta_state] |})
    | Some _ => (Raise AssertionError, w)
    | None =>
        (Return tt,
         {| self_ := store delta_state (self_ w); app := app w;
            log := log w ++ [Applied delta_state] |})
    end.
Proof.
  unfold _call_event_handlers_for_delta_state.
  destruct (delta_state !! "text") as [new_value|].
  - destruct new_value;
      try (erewrite bind_Raise; [reflexivity|];
           erewrite bind_Raise; [reflexivity|]; apply assert_false).
    erewrite bind_Return; [|
      erewrite bind_Return by apply assert_true;
      erewrite bind_Return by apply get_self_run;
      apply call_run].
    rewrite apply_run. cbn [self_ app log]. by rewrite <- (assoc_L (++)).
  - erewrite bind_Return by reflexivity. by rewrite apply_run.
Qed.

(** C1, amended: a confirm message [{"text": v}] is processed in this
    order: [v] is stored in the component's [text] attribute; the change
    handler, if any, is called with the text as now stored, which is [v],
    and finds it stored; the confirm handler, if any, is called with the
    text as it is stored at that moment, which is [v] again when no change
    handler is registered or the change handler left the component as it
    found it, and otherwise whatever the change handler stored; last, and
    whatever the handlers are and did, the session is refreshed. *)
Theorem on_message_order d v w :
  d !! "text" = Some v →
  let self1 := store {["text" := v]} (self_ w) in
  let change := ChangeArg (TextInputChangeEvent.mk (text self1)) in
  let s2 := handled invoke (on_change self1) change (self1, app w) in
  let confirm := ConfirmArg (TextInputConfirmEvent.mk (text s2.1)) in
  let s3 := handled invoke (on_confirm s2.1) confirm s2 in
  text self1 = v ∧
  (on_change self1 = None → text s2.1 = v) ∧
  (s2.1 = self1 → text s2.1 = v) ∧
  _on_message invoke (JDict d) w =
    (Return tt,
     {| self_ := s3.1; app := s3.2;
        log := log w ++ [Applied {["text" := v]}] ++
               calls (on_change self1) change self1 ++
               calls (on_confirm s2.1) confirm s2.1 ++ [Refreshed] |}).
Proof.
  intros Hd self1 change s2 confirm s3.
  split; [apply text_store|]. split; [|split].
  - intros Hnone. subst s2. rewrite Hnone. apply text_store.
  - intros ->. apply text_store.
  - by apply on_message_run.
Qed.


(** C9: [_on_message] on anything but a dict with a ["text"] entry raises
    ([AssertionError] for a non-dict, [KeyError] for a dict without the
    key) and leaves the world as it was: no attribute is assigned, no
    handler is called, nothing is logged. *)
Theorem on_message_requires_text_dict msg w :
  ¬ (∃ d v, msg = JDict d ∧ d !! "text" = Some v) →
  _on_message invoke msg w =
    (Raise (if is_dict msg then KeyError (JStr "text") else AssertionError), w).
Proof.
  intros Hmsg. unfold _on_message.
  destruct msg as [| | | | |d];
    try (erewrite bind_Raise; [reflexivity|]; apply assert_false).
  erewrite bind_Return by apply assert_true.
  erewrite bind_Raise; [reflexivity|].
  apply getitem_None. destruct (d !! "text") as [v|] eqn:Hd; [|done].
  destruct Hmsg. eauto.
Qed.

(** C2, amended: for a delta whose ["text"] value is a string, the change
    handler, if any, is called with that value while the component is
    still as it was, and after it returned the delta is applied; a delta
    without ["text"] is applied without a call; a delta whose ["text"]
    value is not a string fails the assertion of line 172 before any call
    and is not applied. *)
Theorem live_edit_order delta_state w :
  (∀ s, delta_state !! "text" = Some (JStr s) →
     let arg := ChangeArg (TextInputChangeEvent.mk (JStr s)) in
     let s1 := handled invoke (on_change (self_ w)) arg (self_ w, app w) in
     _call_event_handlers_for_delta_state invoke delta_state w =
       (Return tt,
        {| self_ := store delta_state s1.1; app := s1.2;
           log := log w ++ calls (on_change (self_ w)) arg (self_ w) ++
                  [Applied delta_state] |})) ∧
  (delta_state !! "text" = None →
     _call_event_handlers_for_delta_state invoke delta_state w =
       (Return tt,
        {| self_ := store delta_state (self_ w); app := app w;
           log := log w ++ [Applied delta_state] |})) ∧
  (∀ v, delta_state !! "text" = Some v → is_str v = false →
     _call_event_handlers_for_delta_state invoke delta_state w =
       (Raise AssertionError, w)).
Proof.
  rewrite handlers_for_delta_run. repeat split.
  - by intros s ->.
  - by intros ->.
  - intros v -> Hv. by destruct v.
Qed.

(** C3: a delta with a key other than ["text"] fails validation with the
    world untouched, and the dispatcher, which validates first, then
    neither calls a handler nor applies any part of the delta. *)
Theorem delta_outside_whitelist_rejected delta_state w :
  ¬ dom delta_state ⊆ ({["text"]} : gset string) →
  _validate_delta_state_from_frontend delta_state w = (Raise AssertionError, w) ∧
  handle_state_edit invoke delta_state w = (Raise AssertionError, w).
Proof.
  intros Hdom.
  assert (_validate_delta_state_from_frontend delta_state w
          = (Raise AssertionError, w)) as Hv.
  { rewrite validate_run. by rewrite bool_decide_false. }
  split; [done|]. unfold handle_state_edit. by erewrite bind_Raise.
Qed.


End TextInput_properties.

(** *** The running example: ["abc"] confirmed on an input showing ["ab"] *)

Lemma on_message_order_witness :
  let confirmed := text_input_py.store {["text" := JStr "abc"]} example.input in
  ({["text" := JStr "abc"]} : JsonDoc) !! "text" = Some (JStr "abc") ∧
  text_input_py._on_message example.invoke
    (JDict {["text" := JStr "abc"]}) example.world =
    (Return tt,
     {| text_input_py.self_ := confirmed;
        text_input_py.app := [JStr "abc"; JStr "abc"];
        text_input_py.log :=
          [text_input_py.Applied {["text" := JStr "abc"]};
           text_input_py.Called example.Remember
             (text_input_py.ChangeArg
                (text_input_py.TextInputChangeEvent.mk (JStr "abc")))
             confirmed;
           text_input_py.Called example.Remember
             (text_input_py.ConfirmArg
                (text_input_py.TextInputConfirmEvent.mk (JStr "abc")))
             confirmed;
           text_input_py.Refreshed] |}).
Proof.
  split; [reflexivity|].
  exact (proj2 (proj2 (proj2 (on_message_order example.invoke
                         {["text" := JStr "abc"]} (JStr "abc") example.world
                         eq_refl)))).
Defined.


Lemma on_message_requires_text_dict_witness :
  text_input_py._on_message example.invoke (JStr "abc") example.world
    = (Raise AssertionError, example.world) ∧
  text_input_py._on_message example.invoke
    (JDict {["value" := JStr "abc"]}) example.world
    = (Raise (KeyError (JStr "text")), example.world).
Proof.
  split.
  - apply (on_message_requires_text_dict example.invoke (JStr "abc")).
    intros (d & v & Hmsg & _). discriminate Hmsg.
  - apply (on_message_requires_text_dict example.invoke
             (JDict {["value" := JStr "abc"]})).
    intros (d & v & Hmsg & Hv). injection Hmsg as <-.
    vm_compute in Hv. discriminate Hv.
Defined.

Lemma live_edit_order_witness :
  text_input_py._call_event_handlers_for_delta_state example.invoke
    {["text" := JStr "abc"]} example.world =
    (Return tt,
     {| text_input_py.self_ :=
          text_input_py.store {["text" := JStr "abc"]} example.input;
        text_input_py.app := [JStr "abc"];
        text_input_py.log :=
          [text_input_py.Called example.Remember
             (text_input_py.ChangeArg
                (text_input_py.TextInputChangeEvent.mk (JStr "abc")))
             example.input;
           text_input_py.Applied {["text" := JStr "abc"]}] |}).
Proof.
  exact (proj1 (live_edit_order example.invoke
                  {["text" := JStr "abc"]} example.world) "abc" eq_refl).
Defined.

(** The confirm handler is not always called with the payload: here the
    change handler overwrites the text of its input with ["ABC"], and the
    confirm handler of the message [{"text": "abc"}] is called with
    ["ABC"], the text it finds stored. *)
Lemma confirm_reads_store_again :
  let registered :=
    {| text_input_py.attrs := text_input_py.TextInput_defaults;
       text_input_py.on_change := Some (example.Overwrite "ABC");
       text_input_py.on_confirm := Some example.Remember |} in
  let w := {| text_input_py.self_ := registered;
              text_input_py.app := [];
              text_input_py.log := [] |} in
  let r := text_input_py._on_message example.invoke
             (JDict {["text" := JStr "abc"]}) w in
  let overwritten := text_input_py.store {["text" := JStr "ABC"]}
                       (text_input_py.store {["text" := JStr "abc"]} registered) in
  r.1 = Return tt ∧
  text_input_py.log r.2 =
    [text_input_py.Applied {["text" := JStr "abc"]};
     text_input_py.Called (example.Overwrite "ABC")
       (text_input_py.ChangeArg
          (text_input_py.TextInputChangeEvent.mk (JStr "abc")))
       (text_input_py.store {["text" := JStr "abc"]} registered);
     text_input_py.Called example.Remember
       (text_input_py.ConfirmArg
          (text_input_py.TextInputConfirmEvent.mk (JStr "ABC")))
       overwritten;
     text_input_py.Refreshed] ∧
  text_input_py.app r.2 = [JStr "ABC"] ∧
  JStr "ABC" ≠ JStr "abc".
Proof.
  vm_compute. repeat split; try reflexivity. discriminate.
Qed.

(** A live edit whose text is a number: the handler is registered but not
    called, and the text stays ["ab"]. *)
Lemma live_edit_non_string_counterexample :
  let r := text_input_py._call_event_handlers_for_delta_state example.invoke
             {["text" := JInt 5]} example.world in
  r.1 = Raise AssertionError ∧
  text_input_py.log r.2 = [] ∧
  text_input_py.app r.2 = [] ∧
  text_input_py.text (text_input_py.self_ r.2) = JStr "ab" ∧
  ¬ (∃ w', r = (Return tt, w') ∧
           text_input_py.text (text_input_py.self_ w') = JInt 5).
Proof.
  vm_compute. repeat split; try reflexivity.
  intros (w' & Hrun & _). discriminate Hrun.
Qed.

Lemma delta_outside_whitelist_rejected_witness :
  let delta_state : JsonDoc := <["text" := JStr "abc"]> {["label" := JStr "x"]} in
  ¬ dom delta_state ⊆ ({["text"]} : gset string) ∧
  text_input_py._validate_delta_state_from_frontend delta_state example.world
    = (Raise AssertionError, example.world) ∧
  text_input_py.handle_state_edit example.invoke delta_state example.world
    = (Raise AssertionError, example.world).
Proof.
  intros delta_state.
  assert (¬ dom delta_state ⊆ ({["text"]} : gset string)) as Hdom.
  { apply (bool_decide_eq_false_1 _). vm_compute. reflexivity. }
  split; [exact Hdom|].
  exact (delta_outside_whitelist_rejected example.invoke
           delta_state example.world Hdom).
Defined.


Section TestClient_properties.
Import testing_py.
Context `{Countable Component}.
Variable _id : Component → Z.
Variable attributes : Component → JsonDoc.
Implicit Types (c self : TestClient Component) (message : JsonDoc)
  (s : Session Component).

Lemma process_run message c :
  let c1 := set_transport
              {| sent_messages := sent_messages (_transport c);
                 queued_responses := queued_responses (_transport c) ++ acks message |} c in
  _process_sent_message message c =
    match message !! "method" with
    | Some method =>
        (Return tt,
         if eq_str method "updateComponentStates"
         then set_first_refresh_completed c1 else c1)
    | None => (Raise (KeyError (JStr "method")), c1)
    end.
Proof.
  intros c1. unfold _process_sent_message.
  assert ((if bool_decide ("id" ∈ dom message)
           then id ← getitem message "id"; queue_response (acknowledgment id)
           else mret tt) c = (Return tt, c1)) as Hack.
  { subst c1. unfold acks, getitem. case_bool_decide as Hid.
    - apply elem_of_dom in Hid as [id Hid]. rewrite Hid. reflexivity.
    - apply not_elem_of_dom in Hid. rewrite Hid, app_nil_r.
      by destruct c as [? ? ? ? [] ?]. }
  erewrite bind_Return by apply Hack.
  unfold getitem. destruct (message !! "method") as [method|].
  - erewrite bind_Return by reflexivity. by destruct (eq_str method _).
  - by erewrite bind_Raise.
Qed.

Lemma send_run message c :
  send message c =
    _process_sent_message message
      (set_transport
         {| sent_messages := sent_messages (_transport c) ++ [message];
            queued_responses := queued_responses (_transport c) |} c).
Proof. reflexivity. Qed.

Lemma process_queue message c :
  queued_responses (_transport (_process_sent_message message c).2) =
    queued_responses (_transport c) ++ acks message.
Proof.
  rewrite process_run.
  destruct (message !! "method") as [method|]; [destruct (eq_str method _)|];
    reflexivity.
Qed.

(** C8: processing a sent message that has an ["id"] queues exactly one
    response, [{"jsonrpc": "2.0", "id": <that id>, "result": null}], and a
    message without ["id"] queues nothing; the same holds for a message
    sent through the transport. *)
Theorem one_acknowledgment_per_id message c :
  let queued c' := queued_responses (_transport c') in
  let expected :=
    match message !! "id" with
    | Some id =>
        [<["jsonrpc" := JStr "2.0"]> (<["id" := id]> (<["result" := JNull]> ∅))]
    | None => []
    end in
  queued (_process_sent_message message c).2 = queued c ++ expected ∧
  queued (send message c).2 = queued c ++ expected.
Proof.
  cbn zeta. by rewrite send_run, !process_queue.
Qed.

Lemma is_update_method message :
  is_update message = true ↔ message !! "method" = Some (JStr "updateComponentStates").
Proof.
  unfold is_update. split.
  - destruct (message !! "method") as [[| | |m| |]|]; cbn; try done.
    case_bool_decide; by simplify_eq.
  - by intros ->.
Qed.

Lemma send_flag_sound message c :
  flag_sound c → flag_sound (send message c).2.
Proof.
  intros Hc. rewrite send_run, process_run. unfold flag_sound.
  destruct (message !! "method") as [method|] eqn:Hm; cbn.
  - destruct (eq_str method "updateComponentStates") eqn:Heq; cbn.
    + intros _. exists message. split; [set_solver|].
      unfold is_update. by rewrite Hm.
    + intros [m [Hin Hup]]%Hc. exists m. split; [set_solver|done].
  - intros [m [Hin Hup]]%Hc. exists m. split; [set_solver|done].
Qed.

Lemma send_all_flag_sound messages c :
  flag_sound c → flag_sound (send_all messages c).2.
Proof.
  revert c. induction messages as [|message rest IH]; intros c Hc; [done|].
  cbn [send_all]. pose proof (send_flag_sound message c Hc) as Hs.
  unfold mbind, Py_bind. destruct (send message c) as [[[]|e] c1]; cbn in *; auto.
Qed.

Lemma wait_run pending c :
  wait pending c =
    if _first_refresh_completed c then (Return Resumed, c)
    else match pending with
         | [] => (Return Suspended, c)
         | message :: rest =>
             match send message c with
             | (Return _, c1) => wait rest c1
             | (Raise e, c1) => (Raise e, c1)
             end
         end.
Proof.
  destruct pending; cbn [wait]; unfold mbind at 1, Py_bind at 1, get;
    by destruct (_first_refresh_completed c).
Qed.

Lemma wait_flag_sound pending c :
  flag_sound c → flag_sound (wait pending c).2.
Proof.
  revert c. induction pending as [|message rest IH]; intros c Hc;
    rewrite wait_run; destruct (_first_refresh_completed c); try done.
  pose proof (send_flag_sound message c Hc) as Hs.
  destruct (send message c) as [[[]|e] c1]; cbn in *; auto.
Qed.

Lemma wait_Resumed pending c c' :
  wait pending c = (Return Resumed, c') → _first_refresh_completed c' = true.
Proof.
  revert c. induction pending as [|message rest IH]; intros c;
    rewrite wait_run; destruct (_first_refresh_completed c) eqn:Hf;
    try (intros; by simplify_eq).
  destruct (send message c) as [[[]|e] c1]; [apply IH|done].
Qed.

Lemma aenter_run session during later c :
  __aenter__ session during later c =
    match send_all during c with
    | (Return _, c1) =>
        wait later (set_session (entered_session (_use_ordered_dirty_set c1) session) c1)
    | (Raise e, c1) => (Raise e, c1)
    end.
Proof.
  unfold __aenter__. unfold mbind at 1, Py_bind at 1.
  destruct (send_all during c) as [[[]|e] c1]; [|done].
  unfold mbind at 1, Py_bind at 1, modify at 1.
  unfold mbind at 1, Py_bind at 1, get at 1.
  unfold mbind at 1, Py_bind at 1.
  change (_use_ordered_dirty_set (set_session session c1))
    with (_use_ordered_dirty_set c1).
  by destruct (_use_ordered_dirty_set c1).
Qed.

Lemma aenter_needs_update session during later c c' :
  flag_sound c →
  __aenter__ session during later c = (Return Resumed, c') →
  ∃ m, m ∈ sent_messages (_transport c') ∧
       m !! "method" = Some (JStr "updateComponentStates").
Proof.
  intros Hc. rewrite aenter_run.
  pose proof (send_all_flag_sound during c Hc) as Hs.
  destruct (send_all during c) as [[[]|e] c1]; [|done]. cbn in Hs.
  set (c2 := set_session _ c1). intros Hrun.
  assert (flag_sound c2) as Hc2 by apply Hs.
  pose proof (wait_flag_sound later c2 Hc2) as Hw. rewrite Hrun in Hw.
  destruct Hw as [m [Hin Hup]]; [by eapply wait_Resumed|].
  exists m. split; [done|]. by apply is_update_method.
Qed.

Lemma full_state_entries (tree : ComponentTree Component) :
  NoDup (_id <$> components tree) →
  size (full_state _id attributes tree) = length (components tree) ∧
  ∀ x : Component, x ∈ components tree →
    full_state _id attributes tree !! pretty (_id x) = Some (JDict (attributes x)).
Proof.
  intros Hids. unfold full_state.
  set (entries := (λ y, (pretty (_id y), JDict (attributes y))) <$> components tree).
  assert (NoDup entries.*1) as Hkeys.
  { subst entries. rewrite <- list_fmap_compose.
    assert (fst ∘ (λ y, (pretty (_id y), JDict (attributes y)))
            = pretty ∘ _id) as -> by done.
    rewrite list_fmap_compose. by apply (NoDup_fmap_2 _). }
  split.
  - rewrite <- length_map_to_list, (map_to_list_to_map entries Hkeys).
    subst entries. by rewrite length_fmap.
  - intros x Hx. apply elem_of_list_to_map_1; [done|].
    subst entries. by apply (list_elem_of_fmap_2 (λ y, (pretty (_id y), JDict (attributes y)))).
Qed.

(** C7: entering the test client on a session created for a tree whose
    components have distinct identifiers returns after exactly one message
    was sent; this message has method ["updateComponentStates"], and its
    [deltaStates] has one entry per component of the tree (three for a tree
    of three), each the full attribute set of its component.  And whatever
    a session sends, [__aenter__] returns only once a message with method
    ["updateComponentStates"] is among the sent ones. *)
Theorem full_initial_sync (tree : ComponentTree Component) user_settings active_url ordered later :
  NoDup (_id <$> components tree) →
  let client := __init__ user_settings active_url ordered in
  let r := __aenter__ (create_session _id tree)
             (create_session_sends _id attributes tree) later client in
  r.1 = Return Resumed ∧
  sent_messages (_transport r.2) =
    [updateComponentStates (full_state _id attributes tree)] ∧
  updateComponentStates (full_state _id attributes tree) !! "method"
    = Some (JStr "updateComponentStates") ∧
  size (full_state _id attributes tree) = length (components tree) ∧
  (∀ x : Component, x ∈ components tree →
     full_state _id attributes tree !! pretty (_id x) = Some (JDict (attributes x))) ∧
  (∀ session during later' c',
     __aenter__ session during later' client = (Return Resumed, c') →
     ∃ m, m ∈ sent_messages (_transport c') ∧
          m !! "method" = Some (JStr "updateComponentStates")).
Proof.
  intros Hids client r.
  destruct (full_state_entries tree Hids) as [Hsize Hentries].
  assert (r.1 = Return Resumed ∧
          sent_messages (_transport r.2) =
            [updateComponentStates (full_state _id attributes tree)]) as [??].
  { subst r client. unfold __aenter__, create_session_sends.
    destruct ordered, later; done. }
  repeat split; try done.
  intros session during later' c'. apply aenter_needs_update. by intros ?.
Qed.

Lemma last_changes_in_run self messages :
  Forall has_method messages →
  last_changes_in _id self messages =
    match head (filter (λ message, is_update message = true) messages) with
    | Some message => changes_in _id self message
    | None => Return ∅
    end.
Proof.
  induction 1 as [|message rest [method Hm] _ IH]; [done|].
  assert (is_update message = eq_str method "updateComponentStates") as Hup.
  { unfold is_update. by rewrite Hm. }
  rewrite filter_cons.
  cbn [last_changes_in getitem_]. rewrite Hm.
  cbn [mbind outcome_bind].
  destruct (eq_str method "updateComponentStates").
  - by rewrite decide_True.
  - rewrite decide_False; [done|]. by rewrite Hup.
Qed.

Lemma state_change_inv self acc component_id delta acc' :
  state_change _id self acc (component_id, delta) = Return acc' →
  (∃ x, resolves _id self component_id x ∧ acc' = <[x := delta]> acc) ∨
  (acc' = acc ∧ ∀ x, ¬ resolves _id self component_id x).
Proof.
  unfold state_change, resolves, session.
  destruct (int_ component_id) as [i|] eqn:Hi; [|done]. cbn.
  destruct (_session self) as [s|]; [|done]. cbn.
  case_bool_decide as Hroot; cbn.
  - destruct (_weak_components_by_id s !! i) as [x|] eqn:Hx; [|done].
    intros [= <-]. left. exists x. split; [|done]. by exists i, s.
  - intros [= <-]. right. split; [done|].
    intros x (i' & s' & ? & ? & ? & ?). by simplify_eq.
Qed.

Lemma resolves_fun self component_id x y :
  resolves _id self component_id x → resolves _id self component_id y → x = y.
Proof.
  intros (i & s & Hi & Hs & _ & Hx) (i' & s' & Hi' & Hs' & _ & Hy).
  congruence.
Qed.

Lemma state_changes_sound self its : ∀ acc r,
  state_changes _id self acc its = Return r →
  ∀ x delta, r !! x = Some delta →
    acc !! x = Some delta ∨
    ∃ component_id, (component_id, delta) ∈ its ∧ resolves _id self component_id x.
Proof.
  induction its as [|[component_id delta'] rest IH]; intros acc r;
    cbn [state_changes].
  - intros [= <-]; eauto.
  - destruct (state_change _id self acc (component_id, delta')) as [acc'|] eqn:Hstep;
      [|done]. cbn [mbind outcome_bind]. intros Hrest x delta Hx.
    destruct (IH _ _ Hrest x delta Hx) as [Hacc|(cid & Hin & Hres)].
    + apply state_change_inv in Hstep as [(y & Hy & ->)|[-> _]]; [|by left].
      destruct (decide (y = x)) as [->|Hne].
      * rewrite lookup_insert_eq in Hacc. simplify_eq.
        right. exists component_id. split; [left|done].
      * rewrite lookup_insert_ne in Hacc by done. by left.
    + right. exists cid. split; [by right|done].
Qed.

Lemma state_changes_mono self its : ∀ acc r,
  state_changes _id self acc its = Return r →
  ∀ x, is_Some (acc !! x) → is_Some (r !! x).
Proof.
  induction its as [|[component_id delta'] rest IH]; intros acc r;
    cbn [state_changes].
  - by intros [= <-].
  - destruct (state_change _id self acc (component_id, delta')) as [acc'|] eqn:Hstep;
      [|done]. cbn [mbind outcome_bind]. intros Hrest x Hx. apply (IH _ _ Hrest).
    apply state_change_inv in Hstep as [(y & Hy & ->)|[-> _]]; [|done].
    rewrite lookup_insert. case_decide; eauto.
Qed.

Lemma state_changes_complete self its : ∀ acc r,
  state_changes _id self acc its = Return r →
  ∀ component_id delta x,
    (component_id, delta) ∈ its → resolves _id self component_id x →
    is_Some (r !! x).
Proof.
  induction its as [|[cid' delta'] rest IH]; intros acc r;
    cbn [state_changes].
  - intros _ ??? Hin. by apply elem_of_nil in Hin.
  - destruct (state_change _id self acc (cid', delta')) as [acc'|] eqn:Hstep;
      [|done]. cbn [mbind outcome_bind]. intros Hrest component_id delta x Hin Hres.
    apply elem_of_cons in Hin as [[= -> ->]|Hin]; [|by eapply IH].
    apply (state_changes_mono _ _ _ _ Hrest).
    apply state_change_inv in Hstep as [(y & Hy & ->)|[-> Hno]].
    + rewrite (resolves_fun _ _ _ _ Hy Hres), lookup_insert_eq. eauto.
    + by destruct (Hno x).
Qed.

Lemma changes_in_inv self message r :
  changes_in _id self message = Return r →
  ∃ delta_states, delta_states_of message = Some delta_states ∧
    state_changes _id self ∅ (map_to_list delta_states) = Return r.
Proof.
  unfold changes_in, delta_states_of. cbn.
  destruct (message !! "params") as [[| | | | |params]|]; try done. cbn.
  destruct (params !! "deltaStates") as [[| | | | |delta_states]|]; try done. cbn.
  eauto.
Qed.

Lemma changes_in_run self message delta_states :
  delta_states_of message = Some delta_states →
  changes_in _id self message =
    state_changes _id self ∅ (map_to_list delta_states).
Proof.
  unfold changes_in, delta_states_of. cbn.
  destruct (message !! "params") as [[| | | | |params]|]; try done. cbn.
  destruct (params !! "deltaStates") as [[| | | | |ds]|]; try done. cbn.
  by intros [= ->].
Qed.



End TestClient_properties.

(** *** The running example: a tree of three components *)

Lemma full_initial_sync_witness :
  let first_message :=
    testing_py.updateComponentStates
      (testing_py.full_state example.component_id example.component_attributes
         example.tree) in
  let r := testing_py.__aenter__
             (testing_py.create_session example.component_id example.tree)
             (testing_py.create_session_sends example.component_id
                example.component_attributes example.tree)
             [example.other_message]
             (testing_py.__init__ ∅ "/" true) in
  NoDup (example.component_id <$> testing_py.components example.tree) ∧
  r.1 = Return testing_py.Resumed ∧
  testing_py.sent_messages (testing_py._transport r.2) = [first_message] ∧
  size (testing_py.full_state example.component_id example.component_attributes
          example.tree) = 3 ∧
  testing_py.full_state example.component_id example.component_attributes
    example.tree !! "3"
    = Some (JDict (<["text" := JStr "ab"]> (<["is_sensitive" := JBool true]> ∅))).
Proof.
  intros first_message r.
  assert (NoDup (example.component_id <$> testing_py.components example.tree))
    as Hids.
  { apply (bool_decide_eq_true_1 _). vm_compute. reflexivity. }
  destruct (full_initial_sync example.component_id example.component_attributes
              example.tree ∅ "/" true [example.other_message] Hids)
    as (Hreturns & Hsent & _ & Hsize & Hentries & _).
  split; [exact Hids|]. split; [exact Hreturns|]. split; [exact Hsent|].
  split; [exact Hsize|].
  apply (Hentries "input"). apply (bool_decide_eq_true_1 _). vm_compute. reflexivity.
Defined.


Section Text_properties.
Import text_py.
Context {TextStyle Session : Type}.
Variable TextStyle_serialize : TextStyle → Session → json.
Variable _text_align : Text TextStyle Session → json.

(** C5: [_custom_serialize] looks at which variant [style] is: a preset
    name is emitted as it is, a style object is emitted as its own
    [_serialize] gives it for the component's session; either way the
    result has exactly the keys ["style"] and ["text_align"]. *)
Theorem custom_serialize_by_variant text selectable justify session :
  (∀ name,
     let self := mkText text selectable (Preset name) justify session in
     let doc := _custom_serialize TextStyle_serialize _text_align self in
     doc !! "style" = Some (JStr name) ∧
     doc !! "text_align" = Some (_text_align self) ∧
     dom doc = {["style"; "text_align"]}) ∧
  (∀ style : TextStyle,
     let self := mkText text selectable (Custom style) justify session in
     let doc := _custom_serialize TextStyle_serialize _text_align self in
     doc !! "style" = Some (TextStyle_serialize style session) ∧
     doc !! "text_align" = Some (_text_align self) ∧
     dom doc = {["style"; "text_align"]}).
Proof.
  split; intros x self doc; subst doc; unfold _custom_serialize; cbn;
    (split; [by rewrite lookup_insert_eq|]);
    (split; [by rewrite lookup_insert_ne, lookup_insert_eq|]);
    by rewrite !dom_insert_L, dom_empty_L, (right_id_L ∅ (∪)).
Qed.

End Text_properties.

(** * Further properties of the code

    What the remaining functions of the three files do, and how the
    functions above behave at their edges and compose. *)

(** ** [TextInput] *)

Section TextInput_more.
Import text_input_py.
Context {Callable App : Type}.
Variable invoke : Callable → HandlerArg → TextInput Callable * App → TextInput Callable * App.
Implicit Types (w : World Callable App) (self : TextInput Callable)
  (delta_state d : JsonDoc) (v : json).

Lemma dom_within_text delta_state :
  dom delta_state ⊆ ({["text"]} : gset string) ↔
  delta_state = ∅ ∨ ∃ v, delta_state = {["text" := v]}.
Proof.
  split.
  - intros Hdom. destruct (delta_state !! "text") as [v|] eqn:Htext.
    + right. exists v. apply map_eq. intros key.
      destruct (decide (key = "text")) as [->|Hne].
      * by rewrite lookup_singleton_eq.
      * rewrite lookup_singleton_ne by done.
        apply not_elem_of_dom. set_solver.
    + left. apply map_eq. intros key. rewrite lookup_empty.
      destruct (decide (key = "text")) as [->|Hne]; [done|].
      apply not_elem_of_dom. set_solver.
  - intros [->|[v ->]]; [set_solver|]. by rewrite dom_singleton_L.
Qed.

(** X1: validation never changes anything, and it accepts exactly the
    empty delta and, on an input whose [is_sensitive] is true, a delta
    with the single key ["text"]. *)
Theorem validate_accepts_exactly delta_state w :
  (_validate_delta_state_from_frontend delta_state w).2 = w ∧
  ((_validate_delta_state_from_frontend delta_state w).1 = Return tt ↔
   delta_state = ∅ ∨
   ∃ v, delta_state = {["text" := v]} ∧ truthy (is_sensitive (self_ w)) = true).
Proof.
  rewrite validate_run. split; [done|]. cbn [fst].
  case_bool_decide as Hdom.
  - apply dom_within_text in Hdom as [->|[v ->]].
    + rewrite dom_empty_L, bool_decide_false by set_solver. cbn. naive_solver.
    + rewrite dom_singleton_L, bool_decide_true by set_solver. cbn.
      destruct (truthy (is_sensitive (self_ w))); cbn.
      * split; [|done]. intros _. right. eauto.
      * split; [done|]. intros [Hempty|(v' & _ & ?)]; [|done].
        by apply (f_equal (lookup "text")) in Hempty;
          rewrite lookup_singleton_eq, lookup_empty in Hempty.
  - split; [done|]. intros Hshape. destruct Hdom. apply dom_within_text.
    destruct Hshape as [?|(v & ? & _)]; eauto.
Qed.

Lemma on_message_no_text d w :
  d !! "text" = None →
  _on_message invoke (JDict d) w = (Raise (KeyError (JStr "text")), w).
Proof.
  intros Hd. unfold _on_message.
  erewrite bind_Return by apply assert_true.
  erewrite bind_Raise; [reflexivity|]. by apply getitem_None.
Qed.

(** X2: of a dict message, [_on_message] reads the ["text"] entry only:
    two dicts with the same ["text"] entry, or both without one, have the
    same effect. *)
Theorem on_message_reads_only_text d d' w :
  d !! "text" = d' !! "text" →
  _on_message invoke (JDict d) w = _on_message invoke (JDict d') w.
Proof.
  intros Htext. destruct (d !! "text") as [v|] eqn:Hd.
  - by rewrite (on_message_run invoke d v w Hd),
      (on_message_run invoke d' v w (eq_sym Htext)).
  - by rewrite !on_message_no_text.
Qed.

(** X3: [_on_message] does not look at [is_sensitive]: on an input that
    is not sensitive, where validation rejects the delta [{"text": v}], a
    confirm message with the same payload is applied, and with no handlers
    the input then shows [v]. *)
Theorem confirm_bypasses_sensitivity v w :
  truthy (is_sensitive (self_ w)) = false →
  _validate_delta_state_from_frontend {["text" := v]} w = (Raise AssertionError, w) ∧
  ∃ w' rest,
    _on_message invoke (JDict {["text" := v]}) w = (Return tt, w') ∧
    log w' = log w ++ Applied {["text" := v]} :: rest ∧
    (on_change (self_ w) = None → on_confirm (self_ w) = None →
     text (self_ w') = v).
Proof.
  intros Hsens. split.
  - rewrite validate_run, dom_singleton_L, Hsens.
    by rewrite !bool_decide_true by set_solver.
  - eexists _, _. split; [apply on_message_run, lookup_singleton_eq|].
    split; [reflexivity|]. intros Hchange Hconfirm. cbn [self_].
    assert (on_change (store {["text" := v]} (self_ w)) = None) as -> by done.
    cbn [handled fst].
    assert (on_confirm (store {["text" := v]} (self_ w)) = None) as -> by done.
    apply text_store.
Qed.

(** X4: [_on_message] does not check that the text is a string: a value
    that makes the live-edit path fail its assertion, leaving everything
    as it was, is applied by a confirm message and handed to the change
    handler. *)
Theorem confirm_accepts_non_string v w :
  is_str v = false →
  _call_event_handlers_for_delta_state invoke {["text" := v]} w
    = (Raise AssertionError, w) ∧
  let self1 := store {["text" := v]} (self_ w) in
  ∃ w' rest,
    _on_message invoke (JDict {["text" := v]}) w = (Return tt, w') ∧
    log w' =
      log w ++ [Applied {["text" := v]}] ++
      calls (on_change self1)
        (ChangeArg (TextInputChangeEvent.mk v)) self1 ++ rest.
Proof.
  intros Hv. split.
  - rewrite handlers_for_delta_run, lookup_singleton_eq. by destruct v.
  - cbn zeta. eexists _, _.
    split; [apply on_message_run, lookup_singleton_eq|].
    cbn [log]. by rewrite (text_store v (self_ w)).
Qed.

Lemma store_store delta_state self :
  store delta_state (store delta_state self) = store delta_state self.
Proof.
  unfold store; cbn. f_equal.
  by rewrite (assoc_L (∪)), (idemp_L (∪)).
Qed.

(** X5: a live edit followed by the confirmation of the same text calls
    the change handler twice with that text, first with the input still
    showing the old text and then with the new text stored; the delta is
    applied twice and the session is refreshed once. *)
Theorem change_fires_on_edit_and_on_confirm h s w :
  on_change (self_ w) = Some h →
  on_confirm (self_ w) = None →
  (∀ arg st, (invoke h arg st).1 = st.1) →
  let delta_state : JsonDoc := {["text" := JStr s]} in
  let arg := ChangeArg (TextInputChangeEvent.mk (JStr s)) in
  ∃ w',
    (_call_event_handlers_for_delta_state invoke delta_state ;;
     _on_message invoke (JDict delta_state)) w = (Return tt, w') ∧
    self_ w' = store delta_state (self_ w) ∧
    log w' =
      log w ++ [Called h arg (self_ w); Applied delta_state;
                Applied delta_state;
                Called h arg (store delta_state (self_ w)); Refreshed].
Proof.
  intros Hchange Hconfirm Hkeeps delta_state arg.
  eexists. split.
  - erewrite bind_Return; [|rewrite handlers_for_delta_run;
      subst delta_state; rewrite lookup_singleton_eq; reflexivity].
    apply on_message_run, lookup_singleton_eq.
  - subst delta_state arg. cbn [self_ log app]. rewrite Hchange.
    cbn [handled calls fst snd]. rewrite !Hkeeps. cbn [fst snd].
    rewrite store_store, text_store.
    assert (on_change (store {["text" := JStr s]} (self_ w)) = Some h) as ->
      by done.
    cbn [handled calls fst snd]. rewrite !Hkeeps. cbn [fst snd].
    assert (on_confirm (store {["text" := JStr s]} (self_ w)) = None) as ->
      by done.
    cbn [handled calls fst snd]. rewrite !Hkeeps. cbn [fst snd].
    split; [done|]. by rewrite <- !(assoc_L (++)).
Qed.

End TextInput_more.

(** ** [Text] *)

Lemma string_length_app (s1 s2 : string) :
  String.length (s1 +:+ s2) = String.length s1 + String.length s2.
Proof.
  induction s1 as [|a s1 IH]; [done|].
  change (String a s1 +:+ s2) with (String a (s1 +:+ s2)).
  cbn [String.length]. by rewrite IH.
Qed.

Lemma string_length_substring (n : nat) (s : string) :
  String.length (substring 0 n s) = n `min` String.length s.
Proof.
  revert n. induction s as [|a s IH]; intros [|n]; cbn; try done.
  by rewrite IH.
Qed.

Section Text_more.
Import text_py.
Context {TextStyle Session : Type}.
Variable TextStyle_serialize : TextStyle → Session → json.
Variable _text_align : Text TextStyle Session → json.
Variable _id : Text TextStyle Session → Z.
Variable repr : string → string.
Implicit Types self : Text TextStyle Session.

(** X6: the text [__repr__] shows has at most 43 characters and at most
    three more than the text itself; a text of up to 40 characters is
    shown whole, a longer one as 43 characters, and what is shown starts
    as the text does. *)
Theorem shown_text_bounded self :
  (String.length (shown_text self) ≤ 43)%nat ∧
  (String.length (shown_text self) ≤ String.length (text self) + 3)%nat ∧
  ((String.length (text self) ≤ 40)%nat → shown_text self = text self) ∧
  ((40 < String.length (text self))%nat →
   String.length (shown_text self) = 43) ∧
  substring 0 40 (shown_text self) = substring 0 40 (text self).
Proof.
  unfold shown_text. case_decide as Hlong.
  - assert (String.length (substring 0 40 (text self) +:+ "...") = 43) as Hlen.
    { rewrite string_length_app, string_length_substring.
      change (String.length "...") with 3. lia. }
    rewrite Hlen. repeat split; try lia.
    generalize (text self) Hlong. clear. intros s.
    do 41 (destruct s as [|? s]; [cbn; lia|]). intros _. reflexivity.
  - repeat split; try lia; done.
Qed.

(** X7: [__repr__] does not tell apart two components with the same
    identifier whose texts are longer than 40 characters and agree on the
    first 40. *)
Theorem repr_hides_tail type_name self self' :
  _id self = _id self' →
  (40 < String.length (text self))%nat →
  (40 < String.length (text self'))%nat →
  substring 0 40 (text self) = substring 0 40 (text self') →
  __repr__ _id repr type_name self = __repr__ _id repr type_name self'.
Proof.
  intros Hid Hlong Hlong' Hprefix. unfold __repr__, shown_text.
  by rewrite !decide_True, Hid, Hprefix by done.
Qed.

(** X8: the debug details report under ["align_x"] the value that is
    serialized as ["text_align"], replacing what the base class reported
    there, and keep every other entry of the base class. *)
Theorem debug_details_align_x details self :
  let result := get_debug_details _text_align details self in
  result !! "align_x"
    = _custom_serialize TextStyle_serialize _text_align self !! "text_align" ∧
  (∀ key, key ≠ "align_x" → result !! key = details !! key) ∧
  dom result = {["align_x"]} ∪ dom details.
Proof.
  cbn zeta. unfold get_debug_details, _custom_serialize. split.
  - by rewrite lookup_insert_eq, lookup_insert_ne, lookup_insert_eq.
  - split; [|by rewrite dom_insert_L].
    intros key Hkey. by rewrite lookup_insert_ne.
Qed.

End Text_more.

(** ** [TestClient] *)

(** ** [int] of a decimal numeral *)

Lemma string_rev_app_rev_app (s t : string) :
  String.rev_app (String.rev_app s t) "" = String.rev_app t s.
Proof.
  revert t. induction s as [|a s IH]; intros t; [done|].
  cbn. by rewrite IH.
Qed.

Lemma string_rev_involutive (s : string) : String.rev (String.rev s) = s.
Proof. unfold String.rev. by rewrite string_rev_app_rev_app. Qed.

Lemma lstrip_spaceless s : testing_py.spaceless s → testing_py.lstrip s = s.
Proof.
  destruct s as [|a s]; [done|]. intros [Ha _]%Forall_cons. cbn. by rewrite Ha.
Qed.

Lemma rev_app_spaceless s t :
  testing_py.spaceless s → testing_py.spaceless t → testing_py.spaceless (String.rev_app s t).
Proof.
  revert t. induction s as [|a s IH]; intros t Hs Ht; [done|].
  apply Forall_cons in Hs as [Ha Hs]. cbn. apply IH; [done|].
  by apply Forall_cons.
Qed.

Lemma strip_spaceless s : testing_py.spaceless s → testing_py.strip s = s.
Proof.
  intros Hs. unfold testing_py.strip. rewrite (lstrip_spaceless s Hs).
  rewrite lstrip_spaceless; [apply string_rev_involutive|].
  apply rev_app_spaceless; [done|constructor].
Qed.

Lemma pretty_N_char_digit (n : N) :
  (n < 10)%N →
  Ascii.is_nat (pretty_N_char n) = Some (N.to_nat n) ∧
  testing_py.is_space (pretty_N_char n) = false.
Proof.
  intros Hn.
  assert (n = 0 ∨ n = 1 ∨ n = 2 ∨ n = 3 ∨ n = 4 ∨ n = 5 ∨ n = 6 ∨ n = 7
          ∨ n = 8 ∨ n = 9)%N as Hcases by lia.
  by repeat destruct Hcases as [->|Hcases]; [..|subst n].
Qed.

Lemma pretty_N_go_spaceless (x : N) s :
  testing_py.spaceless s → testing_py.spaceless (pretty_N_go x s).
Proof.
  revert s. induction (N.lt_wf_0 x) as [x _ IH]; intros s Hs.
  destruct (decide (x = 0)%N) as [->|Hx]; [by rewrite pretty_N_go_0|].
  rewrite pretty_N_go_step by lia. apply IH.
  - apply N.div_lt; lia.
  - apply Forall_cons. split; [|done].
    apply pretty_N_char_digit. by apply N.mod_lt.
Qed.

Lemma digits_pretty_N_go (x : N) :
  (0 < x)%N →
  ∃ k : Z, ∀ s acc after_digit,
    testing_py.digits acc after_digit (pretty_N_go x s)
    = testing_py.digits (acc * k + Z.of_N x) true s.
Proof.
  induction (N.lt_wf_0 x) as [x _ IH]; intros Hx.
  assert (x `mod` 10 < 10)%N as Hmod by by apply N.mod_lt.
  destruct (pretty_N_char_digit _ Hmod) as [Hdigit _].
  destruct (decide (x `div` 10 = 0)%N) as [Hdiv|Hdiv].
  - exists 10%Z. intros s acc after_digit.
    rewrite pretty_N_go_step, Hdiv, pretty_N_go_0 by done.
    cbn [testing_py.digits]. rewrite Hdigit. f_equal.
    pose proof (N.div_mod x 10 ltac:(done)) as Hx10.
    clear IH Hdigit. revert Hx10 Hmod Hdiv.
    generalize (x `div` 10)%N (x `mod` 10)%N. lia.
  - destruct (IH (x `div` 10)%N) as [k Hk];
      [apply N.div_lt; lia|by apply N.neq_0_lt_0|].
    exists (10 * k)%Z. intros s acc after_digit.
    rewrite pretty_N_go_step, Hk by done.
    cbn [testing_py.digits]. rewrite Hdigit. f_equal.
    pose proof (N.div_mod x 10 ltac:(done)) as Hx10.
    clear IH Hdigit Hk. revert Hx10 Hmod Hdiv.
    generalize (x `div` 10)%N (x `mod` 10)%N. lia.
Qed.

Lemma pretty_N_go_head (x : N) s :
  (0 < x)%N → ∃ n rest, (n < 10)%N ∧ pretty_N_go x s = String (pretty_N_char n) rest.
Proof.
  revert s. induction (N.lt_wf_0 x) as [x _ IH]; intros s Hx.
  rewrite pretty_N_go_step by done.
  destruct (decide (x `div` 10 = 0)%N) as [->|Hdiv].
  - rewrite pretty_N_go_0. exists (x `mod` 10)%N, s. split; [|done].
    by apply N.mod_lt.
  - apply IH; [apply N.div_lt; lia|by apply N.neq_0_lt_0].
Qed.

Lemma int_of_digit_string (n : N) rest :
  (n < 10)%N →
  testing_py.strip (String (pretty_N_char n) rest) = String (pretty_N_char n) rest →
  testing_py.int_ (String (pretty_N_char n) rest) =
    match testing_py.digits 0 false (String (pretty_N_char n) rest) with
    | Some z => Return z
    | None => Raise ValueError
    end.
Proof.
  intros Hn Hstrip. unfold testing_py.int_. rewrite Hstrip.
  assert (n = 0 ∨ n = 1 ∨ n = 2 ∨ n = 3 ∨ n = 4 ∨ n = 5 ∨ n = 6 ∨ n = 7
          ∨ n = 8 ∨ n = 9)%N as Hcases by lia.
  by repeat destruct Hcases as [->|Hcases]; [..|subst n].
Qed.

Lemma int_pretty_pos (p : positive) :
  testing_py.int_ (pretty (Npos p)) = Return (Zpos p) ∧
  testing_py.digits 0 false (pretty (Npos p)) = Some (Zpos p) ∧
  testing_py.spaceless (pretty (Npos p)).
Proof.
  assert (pretty (Npos p) = pretty_N_go (Npos p) "") as -> by done.
  assert (testing_py.spaceless (pretty_N_go (N.pos p) "")) as Hspaceless.
  { apply pretty_N_go_spaceless. constructor. }
  assert (testing_py.digits 0 false (pretty_N_go (N.pos p) "") = Some (Z.pos p))
    as Hdigits.
  { destruct (digits_pretty_N_go (Npos p)) as [k Hk]; [lia|].
    by rewrite Hk. }
  split; [|done].
  destruct (pretty_N_go_head (Npos p) "") as (n & rest & Hn & Hhead); [lia|].
  rewrite Hhead in *. rewrite int_of_digit_string, Hdigits; [done..|].
  by apply strip_spaceless.
Qed.

(** The separators 28 to 31 are not dropped, the six whitespace
    characters are. *)
Example int_keeps_separators :
  testing_py.int_ (String (ascii_of_nat 28) "3") = Raise ValueError ∧
  testing_py.int_ (String (ascii_of_nat 31) "3") = Raise ValueError ∧
  testing_py.int_ (String (ascii_of_nat 9) (String (ascii_of_nat 13) " 3 "))
    = Return 3%Z.
Proof. vm_compute. repeat split; reflexivity. Qed.

Lemma int_pretty (z : Z) : testing_py.int_ (pretty z) = Return z.
Proof.
  destruct z as [|p|p]; [done|apply int_pretty_pos|].
  destruct (int_pretty_pos p) as (_ & Hdigits & Hspaceless).
  assert (pretty (Zneg p) = String "-" (pretty (Npos p))) as -> by done.
  unfold testing_py.int_. rewrite strip_spaceless.
  - by rewrite Hdigits.
  - by apply Forall_cons.
Qed.

Section TestClient_more.
Import testing_py.
Context `{Countable Component}.
Variable _id : Component → Z.
Implicit Types (c self : TestClient Component) (message : JsonDoc)
  (s : Session Component).

Lemma is_update_has_method message : is_update message = true → has_method message.
Proof.
  unfold is_update, has_method. by destruct (message !! "method"); eauto.
Qed.

(** X9: processing a sent message changes neither the recorded
    messages nor the session nor the settings; the event is set afterwards
    exactly if it was set before or the message is an update, so it is
    never cleared; the call returns exactly for a message with a method
    and raises [KeyError] for one without. *)
Theorem process_sent_message_frame message c :
  let r := _process_sent_message message c in
  sent_messages (_transport r.2) = sent_messages (_transport c) ∧
  _session r.2 = _session c ∧
  _user_settings r.2 = _user_settings c ∧
  _active_url r.2 = _active_url c ∧
  _use_ordered_dirty_set r.2 = _use_ordered_dirty_set c ∧
  _first_refresh_completed r.2 = _first_refresh_completed c || is_update message ∧
  (r.1 = Return tt ↔ has_method message) ∧
  (¬ has_method message → r.1 = Raise (KeyError (JStr "method"))).
Proof.
  cbn zeta. rewrite process_run. unfold is_update, has_method.
  destruct (message !! "method") as [method|]; cbn.
  - destruct (eq_str method "updateComponentStates"); cbn;
      rewrite ?orb_true_r, ?orb_false_r; repeat split; eauto;
      by intros [].
  - rewrite orb_false_r. repeat split; by try intros [??].
Qed.

Lemma send_step message c :
  has_method message →
  ∃ c', send message c = (Return tt, c') ∧
    sent_messages (_transport c') = sent_messages (_transport c) ++ [message] ∧
    queued_responses (_transport c') =
      queued_responses (_transport c) ++ acks message ∧
    _first_refresh_completed c' = _first_refresh_completed c || is_update message ∧
    _session c' = _session c ∧
    _use_ordered_dirty_set c' = _use_ordered_dirty_set c.
Proof.
  intros [method Hm]. rewrite send_run, process_run, Hm.
  eexists. split; [reflexivity|]. unfold is_update. rewrite Hm.
  destruct (eq_str method "updateComponentStates"); cbn;
    rewrite ?orb_true_r, ?orb_false_r; done.
Qed.

Lemma send_all_run messages c :
  Forall has_method messages →
  ∃ c', send_all messages c = (Return tt, c') ∧
    sent_messages (_transport c') = sent_messages (_transport c) ++ messages ∧
    queued_responses (_transport c') =
      queued_responses (_transport c) ++ flat_map acks messages ∧
    _first_refresh_completed c' =
      _first_refresh_completed c || existsb is_update messages ∧
    _session c' = _session c ∧
    _use_ordered_dirty_set c' = _use_ordered_dirty_set c.
Proof.
  intros Hall. revert c.
  induction Hall as [|message rest Hm _ IH]; intros c.
  - exists c. cbn. by rewrite !app_nil_r, orb_false_r.
  - destruct (send_step message c Hm) as (c1 & Hsend & Hsent & Hq & Hf & Hs & Ho).
    destruct (IH c1) as (c' & Hrest & Hsent' & Hq' & Hf' & Hs' & Ho').
    exists c'. cbn [send_all]. erewrite bind_Return by exact Hsend.
    split; [done|]. rewrite Hsent', Hq', Hf', Hs', Ho', Hsent, Hq, Hf, Hs, Ho.
    cbn [flat_map existsb]. by rewrite <- !(assoc_L (++)), orb_assoc.
Qed.

(** X10: messages that all carry a method are sent without an error;
    afterwards they are recorded in the order sent, their acknowledgments
    are queued in the same order, one per message with an ["id"], and the
    event is set if it was set or one of them was an update. *)
Theorem send_all_in_order messages c :
  Forall has_method messages →
  ∃ c', send_all messages c = (Return tt, c') ∧
    sent_messages (_transport c') = sent_messages (_transport c) ++ messages ∧
    queued_responses (_transport c') =
      queued_responses (_transport c) ++ flat_map acks messages ∧
    _first_refresh_completed c' =
      _first_refresh_completed c || existsb is_update messages.
Proof.
  intros Hall.
  destruct (send_all_run messages c Hall) as (c' & ? & ? & ? & ? & _).
  by exists c'.
Qed.

Lemma wait_set pending c :
  _first_refresh_completed c = true → wait pending c = (Return Resumed, c).
Proof. intros Hf. by rewrite wait_run, Hf. Qed.

Lemma wait_until_update pre u post c :
  _first_refresh_completed c = false →
  Forall (λ m, has_method m ∧ is_update m = false) pre →
  is_update u = true →
  ∃ c', wait (pre ++ u :: post) c = (Return Resumed, c') ∧
    sent_messages (_transport c') = sent_messages (_transport c) ++ pre ++ [u].
Proof.
  intros Hf Hpre Hu. revert c Hf.
  induction Hpre as [|m pre [Hm Hnot] _ IH]; intros c Hf.
  - destruct (send_step u c (is_update_has_method u Hu))
      as (c1 & Hsend & Hsent & _ & Hf1 & _).
    exists c1. cbn [app]. rewrite wait_run, Hf, Hsend.
    rewrite wait_set; [done|]. by rewrite Hf1, Hu, orb_true_r.
  - destruct (send_step m c Hm) as (c1 & Hsend & Hsent & _ & Hf1 & _).
    destruct (IH c1) as (c' & Hwait & Hsent').
    { by rewrite Hf1, Hf, Hnot. }
    exists c'. cbn [app]. rewrite wait_run, Hf, Hsend.
    split; [done|]. rewrite Hsent', Hsent. by rewrite <- !(assoc_L (++)).
Qed.

Lemma wait_without_update pending c :
  _first_refresh_completed c = false →
  Forall (λ m, has_method m ∧ is_update m = false) pending →
  ∃ c', wait pending c = (Return Suspended, c') ∧
    sent_messages (_transport c') = sent_messages (_transport c) ++ pending.
Proof.
  intros Hf Hall. revert c Hf.
  induction Hall as [|m rest [Hm Hnot] _ IH]; intros c Hf.
  - exists c. by rewrite wait_run, Hf, app_nil_r.
  - destruct (send_step m c Hm) as (c1 & Hsend & Hsent & _ & Hf1 & _).
    destruct (IH c1) as (c' & Hwait & Hsent').
    { by rewrite Hf1, Hf, Hnot. }
    exists c'. rewrite wait_run, Hf, Hsend.
    split; [done|]. rewrite Hsent', Hsent. by rewrite <- !(assoc_L (++)).
Qed.

(** X11: on a fresh client [__aenter__] returns as soon as the first
    update was sent: at once when the session sent one while it was
    created, and otherwise after the messages up to and including the
    first update; what the session has to send after that is not waited
    for. *)
Theorem aenter_returns_at_first_update session during pre u post c :
  _first_refresh_completed c = false →
  Forall has_method during →
  Forall (λ m, has_method m ∧ is_update m = false) pre →
  is_update u = true →
  ∃ c', __aenter__ session during (pre ++ u :: post) c = (Return Resumed, c') ∧
    sent_messages (_transport c') =
      sent_messages (_transport c) ++ during ++
      (if existsb is_update during then [] else pre ++ [u]).
Proof.
  intros Hf Hduring Hpre Hu. rewrite aenter_run.
  destruct (send_all_run during c Hduring)
    as (c1 & -> & Hsent & _ & Hf1 & _).
  rewrite Hf in Hf1. cbn in Hf1.
  set (c2 := set_session _ c1).
  destruct (existsb is_update during) eqn:Hany.
  - exists c2. rewrite wait_set by exact Hf1.
    split; [done|]. rewrite app_nil_r. exact Hsent.
  - destruct (wait_until_update pre u post c2 Hf1 Hpre Hu) as (c' & -> & Hsent').
    exists c'. split; [done|]. rewrite Hsent'.
    change (sent_messages (_transport c2)) with (sent_messages (_transport c1)).
    by rewrite Hsent, <- !(assoc_L (++)).
Qed.

(** X12: when the session never sends an update, [__aenter__] on a fresh
    client does not return: every message is sent and the wait stays
    suspended. *)
Theorem aenter_waits_forever session during later c :
  _first_refresh_completed c = false →
  Forall (λ m, has_method m ∧ is_update m = false) (during ++ later) →
  ∃ c', __aenter__ session during later c = (Return Suspended, c') ∧
    sent_messages (_transport c') =
      sent_messages (_transport c) ++ during ++ later.
Proof.
  intros Hf [Hduring Hlater]%Forall_app. rewrite aenter_run.
  destruct (send_all_run during c) as (c1 & -> & Hsent & _ & Hf1 & _).
  { eapply Forall_impl; [exact Hduring|]. by intros ? [??]. }
  assert (existsb is_update during = false) as Hnone.
  { clear -Hduring. induction Hduring as [|m rest [_ Hm] _ IH]; [done|].
    cbn. by rewrite Hm, IH. }
  rewrite Hf, Hnone in Hf1. cbn in Hf1.
  set (c2 := set_session _ c1).
  destruct (wait_without_update later c2 Hf1 Hlater) as (c' & -> & Hsent').
  exists c'. split; [done|]. rewrite Hsent'.
  change (sent_messages (_transport c2)) with (sent_messages (_transport c1)).
  by rewrite Hsent, <- !(assoc_L (++)).
Qed.







Lemma last_changes_in_inv self messages r :
  last_changes_in _id self messages = Return r →
  match head (filter (λ message, is_update message = true) messages) with
  | Some message => changes_in _id self message = Return r
  | None => r = ∅
  end.
Proof.
  induction messages as [|message rest IH]; cbn [last_changes_in getitem_].
  - by intros [= <-].
  - rewrite filter_cons.
    destruct (message !! "method") as [method|] eqn:Hm; [|done].
    assert (is_update message = eq_str method "updateComponentStates") as Hup.
    { unfold is_update. by rewrite Hm. }
    cbn [mbind outcome_bind].
    destruct (eq_str method "updateComponentStates").
    + by rewrite decide_True.
    + rewrite decide_False; [done|]. by rewrite Hup.
Qed.

Lemma last_changes_inv self r :
  _last_component_state_changes _id self = Return r →
  match last_update (sent_messages (_transport self)) with
  | Some message => changes_in _id self message = Return r
  | None => r = ∅
  end.
Proof.
  unfold _last_component_state_changes, last_update.
  intros Hr%last_changes_in_inv. by rewrite filter_reverse, head_reverse in Hr.
Qed.

(** X14: when [_last_updated_components] returns, its members are
    exactly the components that the keys of the last update's
    [deltaStates] resolve to, the root's key left out. *)
Theorem last_updated_components_exact self updated :
  _last_updated_components _id self = Return updated →
  ∀ x, x ∈ updated ↔
    ∃ message delta_states component_id,
      last_update (sent_messages (_transport self)) = Some message ∧
      delta_states_of message = Some delta_states ∧
      is_Some (delta_states !! component_id) ∧
      resolves _id self component_id x.
Proof.
  unfold _last_updated_components.
  destruct (_last_component_state_changes _id self) as [r|] eqn:Hr; [|done].
  intros [= <-] x. apply last_changes_inv in Hr.
  destruct (last_update (sent_messages (_transport self))) as [message|].
  - apply changes_in_inv in Hr as (delta_states & Hds & Hr).
    rewrite elem_of_dom. split.
    + intros [delta Hx].
      destruct (state_changes_sound _ _ _ _ _ Hr x delta Hx)
        as [?|(cid & Hin%elem_of_map_to_list & Hres)]; [done|].
      exists message, delta_states, cid. eauto.
    + intros (? & ? & cid & [= <-] & ? & [delta Hin] & Hres). simplify_eq.
      eapply state_changes_complete; [done| |done].
      by apply elem_of_map_to_list.
  - subst r. rewrite dom_empty_L. split; [set_solver|].
    by intros (? & ? & ? & ? & _).
Qed.

(** X15: a sent message without a method that is newer than every update
    makes both properties raise [KeyError], whatever was sent before
    it. *)
Theorem last_changes_method_missing self older message newer :
  sent_messages (_transport self) = older ++ message :: newer →
  message !! "method" = None →
  Forall (λ m, has_method m ∧ is_update m = false) newer →
  _last_component_state_changes _id self = Raise (KeyError (JStr "method")) ∧
  _last_updated_components _id self = Raise (KeyError (JStr "method")).
Proof.
  intros Hsent Hm Hnewer.
  assert (_last_component_state_changes _id self
          = Raise (KeyError (JStr "method"))) as Hraise.
  { unfold _last_component_state_changes. rewrite Hsent, reverse_app, reverse_cons.
    rewrite <- (assoc_L (++)). apply Forall_reverse in Hnewer.
    induction Hnewer as [|m rest [[method Hmethod] Hnot] _ IH];
      cbn [app last_changes_in getitem_].
    - by rewrite Hm.
    - rewrite Hmethod. cbn [mbind outcome_bind].
      unfold is_update in Hnot. rewrite Hmethod in Hnot. by rewrite Hnot. }
  split; [done|]. unfold _last_updated_components. by rewrite Hraise.
Qed.

(** X16: when the last update carries no usable [deltaStates], the
    property raises: [KeyError] for missing ["params"] or ["deltaStates"],
    [TypeError] for parameters that are not a dict, [AttributeError] for
    [deltaStates] that are not a dict. *)
Theorem last_changes_malformed_update self message :
  let sent := sent_messages (_transport self) in
  Forall has_method sent →
  last_update sent = Some message →
  delta_states_of message = None →
  _last_component_state_changes _id self =
    Raise
      match message !! "params" with
      | None => KeyError (JStr "params")
      | Some (JDict params) =>
          match params !! "deltaStates" with
          | None => KeyError (JStr "deltaStates")
          | Some _ => AttributeError
          end
      | Some _ => TypeError
      end.
Proof.
  intros sent Hsent Hlast.
  unfold _last_component_state_changes. fold sent.
  rewrite last_changes_in_run by by apply Forall_reverse.
  rewrite filter_reverse, head_reverse.
  unfold last_update in Hlast. rewrite Hlast.
  unfold delta_states_of, changes_in. cbn.
  destruct (message !! "params") as [[| | | | |params]|]; try done. cbn.
  by destruct (params !! "deltaStates") as [[| | | | |delta_states]|].
Qed.

(** A key that can be turned into a component, or skipped as the root's. *)
Lemma state_change_returns_iff self acc component_id delta :
  (∃ acc', state_change _id self acc (component_id, delta) = Return acc') ↔
  ∃ i s, int_ component_id = Return i ∧ _session self = Some s ∧
         (i ≠ _id (_root_component s) →
          is_Some (_weak_components_by_id s !! i)).
Proof.
  unfold state_change, session.
  destruct (int_ component_id) as [i|] eqn:Hi; cbn;
    [|split; [by intros [??]|by intros (?&?&?&_)]].
  destruct (_session self) as [s|]; cbn;
    [|split; [by intros [??]|by intros (?&?&_&?&_)]].
  case_bool_decide as Hroot; cbn.
  - destruct (_weak_components_by_id s !! i) as [x|] eqn:Hx.
    + split; [intros _; exists i, s; eauto|eauto].
    + split; [by intros [??]|].
      intros (i' & s' & [= <-] & [= <-] & Hw).
      destruct (Hw Hroot) as [x Hx']. congruence.
  - split; [intros _; exists i, s|eauto].
    repeat split; by try intros ?.
Qed.

Lemma state_changes_returns_iff self its : ∀ acc,
  (∃ r, state_changes _id self acc its = Return r) ↔
  ∀ component_id delta, (component_id, delta) ∈ its →
    ∃ i s, int_ component_id = Return i ∧ _session self = Some s ∧
           (i ≠ _id (_root_component s) →
            is_Some (_weak_components_by_id s !! i)).
Proof.
  induction its as [|[cid delta] rest IH]; intros acc; cbn [state_changes].
  - split; [|eauto]. intros _ ?? Hin. by apply elem_of_nil in Hin.
  - split.
    + intros [r Hr].
      destruct (state_change _id self acc (cid, delta)) as [acc'|] eqn:Hstep;
        [|done]. cbn [mbind outcome_bind] in Hr.
      intros cid' delta' [[= -> ->]|Hin]%elem_of_cons.
      * apply (proj1 (state_change_returns_iff self acc cid delta)). eauto.
      * apply (proj1 (IH acc') (ex_intro _ r Hr) cid' delta' Hin).
    + intros Hall.
      destruct (proj2 (state_change_returns_iff self acc cid delta))
        as [acc' ->]; [apply (Hall cid delta); left|].
      cbn [mbind outcome_bind]. apply IH.
      intros cid' delta' Hin. apply (Hall cid' delta'). by right.
Qed.

Lemma last_changes_returns_iff self message delta_states :
  let sent := sent_messages (_transport self) in
  Forall has_method sent →
  last_update sent = Some message →
  delta_states_of message = Some delta_states →
  (∃ r, _last_component_state_changes _id self = Return r) ↔
  ∀ component_id, is_Some (delta_states !! component_id) →
    ∃ i s, int_ component_id = Return i ∧ _session self = Some s ∧
           (i ≠ _id (_root_component s) →
            is_Some (_weak_components_by_id s !! i)).
Proof.
  intros sent Hsent Hlast Hds.
  unfold _last_component_state_changes. fold sent.
  rewrite last_changes_in_run by by apply Forall_reverse.
  rewrite filter_reverse, head_reverse.
  unfold last_update in Hlast. rewrite Hlast, (changes_in_run _ _ _ _ Hds).
  rewrite state_changes_returns_iff. split.
  - intros Hall cid [delta Hcid]. apply (Hall cid delta).
    by apply elem_of_map_to_list.
  - intros Hall cid delta Hin%elem_of_map_to_list. apply Hall. eauto.
Qed.


(** X18: when the keys of the last update are the decimal identifiers of
    components the session's index knows, the property returns, for each
    of these components but the root, exactly the delta sent under its
    identifier: [int] reads back what was written as a decimal numeral. *)
Theorem last_changes_of_decimal_keys self s message
    (cs : list Component) (delta : Component → json) :
  let sent := sent_messages (_transport self) in
  let shown x := _id x ≠ _id (_root_component s) in
  Forall has_method sent →
  last_update sent = Some message →
  delta_states_of message
    = Some (list_to_map ((λ x, (pretty (_id x), delta x)) <$> cs)) →
  NoDup (_id <$> cs) →
  _session self = Some s →
  (∀ x, x ∈ cs → shown x → _weak_components_by_id s !! _id x = Some x) →
  _last_component_state_changes _id self
    = Return (list_to_map ((λ x, (x, delta x)) <$> filter shown cs)).
Proof.
  intros sent shown Hsent Hlast Hds Hids Hs Hindex.
  set (delta_states := list_to_map ((λ x, (pretty (_id x), delta x)) <$> cs)) in *.
  assert (NoDup (((λ x, (pretty (_id x), delta x)) <$> cs).*1)) as Hkeys.
  { rewrite <- list_fmap_compose.
    assert (fst ∘ (λ x, (pretty (_id x), delta x)) = pretty ∘ _id) as -> by done.
    rewrite list_fmap_compose. by apply (NoDup_fmap_2 _). }
  assert (∀ cid d, delta_states !! cid = Some d ↔
            ∃ x, x ∈ cs ∧ cid = pretty (_id x) ∧ d = delta x) as Hlookup.
  { intros cid d. subst delta_states.
    rewrite <- elem_of_list_to_map by done. rewrite list_elem_of_fmap.
    split.
    - intros (x & [= -> ->] & Hx). eauto.
    - intros (x & Hx & -> & ->). eauto. }
  assert (∀ x y, x ∈ cs → resolves _id self (pretty (_id x)) y ↔ shown x ∧ y = x)
    as Hresolves.
  { intros x y Hx. unfold resolves. split.
    - intros (i & s' & Hi & ? & Hne & Hw). rewrite int_pretty in Hi.
      simplify_eq. split; [done|]. rewrite Hindex in Hw by done. congruence.
    - intros [Hshown ->]. exists (_id x), s. rewrite int_pretty. eauto. }
  assert (NoDup cs) as Hcs by by eapply NoDup_fmap_1.
  assert (∃ r, _last_component_state_changes _id self = Return r) as [r Hr].
  { apply (last_changes_returns_iff self message delta_states); [done..|].
    intros cid [d (x & Hx & -> & _)%Hlookup].
    exists (_id x), s. rewrite int_pretty. repeat split; try done.
    intros Hshown. rewrite Hindex; eauto. }
  rewrite Hr. f_equal. apply map_eq. intros y.
  pose proof (last_changes_inv _ _ Hr) as Hinv.
  fold sent in Hinv. rewrite Hlast in Hinv.
  apply changes_in_inv in Hinv as (ds' & Hds' & Hrun). simplify_eq.
  destruct (decide (y ∈ cs ∧ shown y)) as [[Hy Hshown]|Hnot].
  - assert (list_to_map ((λ x, (x, delta x)) <$> filter shown cs) !! y
            = Some (delta y)) as ->.
    { apply elem_of_list_to_map_1.
      - rewrite <- list_fmap_compose.
        assert (fst ∘ (λ x, (x, delta x)) = id) as -> by done.
        rewrite list_fmap_id. by apply NoDup_filter.
      - apply (list_elem_of_fmap_2 (λ x, (x, delta x))), list_elem_of_filter.
        done. }
    destruct (state_changes_complete _ _ _ _ _ Hrun (pretty (_id y)) (delta y) y)
      as [d Hd].
    { apply elem_of_map_to_list, Hlookup. eauto. }
    { by apply Hresolves. }
    rewrite Hd. f_equal.
    destruct (state_changes_sound _ _ _ _ _ Hrun y d Hd)
      as [?|(cid & (x & Hx & -> & ->)%elem_of_map_to_list%Hlookup & Hres)];
      [done|].
    apply Hresolves in Hres as [_ ->]; done.
  - rewrite (not_elem_of_list_to_map_1 _ y).
    + destruct (r !! y) as [d|] eqn:Hd; [|done].
      destruct (state_changes_sound _ _ _ _ _ Hrun y d Hd)
        as [?|(cid & (x & Hx & -> & ->)%elem_of_map_to_list%Hlookup & Hres)];
        [done|].
      apply Hresolves in Hres as [? ->]; [|done]. by destruct Hnot.
    + rewrite <- list_fmap_compose.
      assert (fst ∘ (λ x, (x, delta x)) = id) as -> by done.
      rewrite list_fmap_id, list_elem_of_filter. tauto.
Qed.

End TestClient_more.

Section get_component_properties.
Import testing_py.
Context `{Countable Component} `{EqDecision ComponentType}.
Variable type_of : Component → ComponentType.
Variable _get_user_root_component : Session Component → Component.
Variable _iter_component_tree : Component → list Component.
Implicit Types (self : TestClient Component) (component_type : ComponentType).

Lemma filter_head_split {A} (P : A → Prop) `{∀ x, Decision (P x)} (l : list A) x :
  head (filter P l) = Some x ↔
  ∃ before after, l = before ++ x :: after ∧ P x ∧ Forall (λ y, ¬ P y) before.
Proof.
  induction l as [|y l IH].
  - split; [done|]. intros (before & after & Hl & _). by destruct before.
  - rewrite filter_cons. destruct (decide (P y)) as [Hy|Hy]; cbn.
    + split.
      * intros [= ->]. exists [], l. by repeat split.
      * intros ([|z before] & after & Hl & Hx & Hbefore); simplify_eq/=; [done|].
        by apply Forall_cons in Hbefore as [? _].
    + rewrite IH. split.
      * intros (before & after & -> & Hx & Hbefore).
        exists (y :: before), after. repeat split; [done|]. by constructor.
      * intros ([|z before] & after & Hl & Hx & Hbefore); simplify_eq/=; [done|].
        apply Forall_cons in Hbefore as [_ ?]. eauto.
Qed.

(** X19: [get_component] returns the first component, in the order the
    tree is iterated, whose type is exactly the one asked for; when there
    is none, or the client has no session, it raises [AssertionError], and
    it raises nothing else. *)
Theorem get_component_first_match self component_type :
  (∀ component,
     get_component type_of _get_user_root_component _iter_component_tree
       self component_type = Return component ↔
     ∃ s before after,
       _session self = Some s ∧
       _iter_component_tree (_get_user_root_component s)
         = before ++ component :: after ∧
       type_of component = component_type ∧
       Forall (λ other, type_of other ≠ component_type) before) ∧
  (∀ e,
     get_component type_of _get_user_root_component _iter_component_tree
       self component_type = Raise e → e = AssertionError).
Proof.
  unfold get_component, get_components, root_component, session.
  destruct (_session self) as [s|]; cbn.
  - set (found := filter _ _).
    pose proof (filter_head_split (λ x, type_of x = component_type)
                  (_iter_component_tree (_get_user_root_component s))) as Hhead.
    fold found in Hhead. split.
    + intros component. destruct found as [|first rest]; cbn in *.
      * split; [done|]. intros (s' & before & after & [= <-] & Hl & Hx & Hb).
        assert (None = Some component) as Habsurd; [|done].
        apply Hhead. eauto.
      * split.
        -- intros [= ->]. destruct (proj1 (Hhead component) eq_refl)
             as (before & after & Hl & Hx & Hb). by exists s, before, after.
        -- intros (s' & before & after & [= <-] & Hl & Hx & Hb).
           f_equal. assert (Some first = Some component) as [= ->]; [|done].
           apply Hhead. eauto.
    + intros e. destruct found; by intros [= <-].
  - split; [|by intros e [= <-]].
    intros component. split; [done|]. by intros (s & _ & _ & ? & _).
Qed.

End get_component_properties.

(** ** The properties on the running examples *)

Lemma on_message_reads_only_text_witness :
  let d : JsonDoc := {["text" := JStr "abc"]} in
  let d' : JsonDoc := <["key" := JStr "Enter"]> d in
  d !! "text" = d' !! "text" ∧
  text_input_py._on_message example.invoke (JDict d) example.world
    = text_input_py._on_message example.invoke (JDict d') example.world.
Proof.
  intros d d'. split; [reflexivity|].
  exact (on_message_reads_only_text example.invoke d d' example.world eq_refl).
Defined.

Lemma confirm_bypasses_sensitivity_witness :
  truthy (text_input_py.is_sensitive
            (text_input_py.self_ example.insensitive)) = false ∧
  text_input_py._validate_delta_state_from_frontend
    {["text" := JStr "abc"]} example.insensitive
    = (Raise AssertionError, example.insensitive) ∧
  (text_input_py._on_message example.invoke
     (JDict {["text" := JStr "abc"]}) example.insensitive).1 = Return tt.
Proof.
  split; [reflexivity|].
  destruct (confirm_bypasses_sensitivity example.invoke (JStr "abc")
              example.insensitive eq_refl) as [Hvalidate (w' & rest & Hrun & _)].
  split; [exact Hvalidate|]. exact (f_equal fst Hrun).
Defined.

Lemma confirm_accepts_non_string_witness :
  is_str (JInt 5) = false ∧
  text_input_py._call_event_handlers_for_delta_state example.invoke
    {["text" := JInt 5]} example.world = (Raise AssertionError, example.world) ∧
  (text_input_py._on_message example.invoke
     (JDict {["text" := JInt 5]}) example.world).1 = Return tt.
Proof.
  split; [reflexivity|].
  destruct (confirm_accepts_non_string example.invoke (JInt 5) example.world
              eq_refl) as [Hedit (w' & rest & Hrun & _)].
  split; [exact Hedit|]. exact (f_equal fst Hrun).
Defined.

Lemma change_fires_on_edit_and_on_confirm_witness :
  let delta_state : JsonDoc := {["text" := JStr "abc"]} in
  (∀ arg st, (example.invoke example.Remember arg st).1 = st.1) ∧
  text_input_py.app
    ((text_input_py._call_event_handlers_for_delta_state example.invoke
        delta_state ;;
      text_input_py._on_message example.invoke (JDict delta_state))
       example.listening).2
    = [JStr "abc"; JStr "abc"].
Proof.
  intros delta_state.
  assert (∀ arg st, (example.invoke example.Remember arg st).1 = st.1) as Hkeeps
    by (intros arg st; reflexivity).
  split; [exact Hkeeps|].
  destruct (change_fires_on_edit_and_on_confirm example.invoke example.Remember
              "abc" example.listening eq_refl eq_refl Hkeeps)
    as (w' & Hrun & _).
  reflexivity.
Defined.

Lemma repr_hides_tail_witness :
  let show := text_py.__repr__ (λ _, 7%Z) (λ s, "'" +:+ s +:+ "'") "Text" in
  (40 < String.length (text_py.text (example.long_text "!")))%nat ∧
  show (example.long_text "!") = show (example.long_text ", twice").
Proof.
  intros show. split; [vm_compute; lia|].
  apply (repr_hides_tail (λ _, 7%Z) (λ s, "'" +:+ s +:+ "'") "Text"
           (example.long_text "!") (example.long_text ", twice"));
    [reflexivity|vm_compute; lia|vm_compute; lia|reflexivity].
Defined.

Lemma example_sent_has_method :
  Forall testing_py.has_method
    [example.older_update; example.newer_update; example.other_message].
Proof.
  repeat apply Forall_cons_2; [| | |apply Forall_nil_2];
    apply (bool_decide_eq_true_1 _); vm_compute; reflexivity.
Defined.

Lemma send_all_in_order_witness :
  let messages :=
    [example.older_update; example.newer_update; example.other_message] in
  let c' := (testing_py.send_all messages
               (testing_py.__init__ (Component := string) ∅ "/" false)).2 in
  Forall testing_py.has_method messages ∧
  testing_py.sent_messages (testing_py._transport c') = messages ∧
  testing_py.queued_responses (testing_py._transport c')
    = [testing_py.acknowledgment (JInt 7)] ∧
  testing_py._first_refresh_completed c' = true.
Proof.
  intros messages c'. split; [exact example_sent_has_method|].
  destruct (send_all_in_order messages
              (testing_py.__init__ (Component := string) ∅ "/" false)
              example_sent_has_method) as (c1 & Hrun & Hsent & Hqueued & Hflag).
  assert (c' = c1) as -> by (subst c'; by rewrite Hrun).
  split; [exact Hsent|]. split; [exact Hqueued|exact Hflag].
Defined.

Lemma aenter_returns_at_first_update_witness :
  let r := testing_py.__aenter__
             (testing_py.create_session example.component_id example.tree)
             [example.other_message]
             ([example.other_message] ++
              example.newer_update :: [example.older_update])
             (testing_py.__init__ ∅ "/" false) in
  r.1 = Return testing_py.Resumed ∧
  testing_py.sent_messages (testing_py._transport r.2)
    = [example.other_message; example.other_message; example.newer_update].
Proof.
  intros r.
  destruct (aenter_returns_at_first_update
              (testing_py.create_session example.component_id example.tree)
              [example.other_message] [example.other_message]
              example.newer_update [example.older_update]
              (testing_py.__init__ ∅ "/" false))
    as (c' & Hrun & Hsent).
  - reflexivity.
  - apply Forall_cons_2; [|apply Forall_nil_2].
    apply (bool_decide_eq_true_1 _). vm_compute. reflexivity.
  - apply Forall_cons_2; [|apply Forall_nil_2]. split; [|reflexivity].
    apply (bool_decide_eq_true_1 _). vm_compute. reflexivity.
  - reflexivity.
  - subst r. rewrite Hrun. split; [reflexivity|exact Hsent].
Defined.

Lemma aenter_waits_forever_witness :
  let r := testing_py.__aenter__
             (testing_py.create_session example.component_id example.tree)
             [example.other_message] [example.other_message]
             (testing_py.__init__ ∅ "/" false) in
  r.1 = Return testing_py.Suspended ∧
  testing_py.sent_messages (testing_py._transport r.2)
    = [example.other_message; example.other_message].
Proof.
  intros r.
  destruct (aenter_waits_forever
              (testing_py.create_session example.component_id example.tree)
              [example.other_message] [example.other_message]
              (testing_py.__init__ ∅ "/" false))
    as (c' & Hrun & Hsent).
  - reflexivity.
  - repeat apply Forall_cons_2; [| |apply Forall_nil_2];
      (split; [|reflexivity]);
      apply (bool_decide_eq_true_1 _); vm_compute; reflexivity.
  - subst r. rewrite Hrun. split; [reflexivity|exact Hsent].
Defined.


Lemma last_updated_components_exact_witness :
  testing_py._last_updated_components example.component_id example.client
    = Return {["input"]} ∧
  ("input" ∈ ({["input"]} : gset string) ↔
   ∃ message delta_states component_id,
     testing_py.last_update
       (testing_py.sent_messages (testing_py._transport example.client))
       = Some message ∧
     testing_py.delta_states_of message = Some delta_states ∧
     is_Some (delta_states !! component_id) ∧
     testing_py.resolves example.component_id example.client component_id
       "input").
Proof.
  assert (testing_py._last_updated_components example.component_id example.client
          = Return {["input"]}) as Hrun by (vm_compute; reflexivity).
  split; [exact Hrun|].
  exact (last_updated_components_exact example.component_id example.client
           {["input"]} Hrun "input").
Defined.

Lemma last_changes_method_missing_witness :
  let self := example.client_that_sent
                [example.newer_update; example.response; example.other_message] in
  example.response !! "method" = None ∧
  testing_py._last_component_state_changes example.component_id self
    = Raise (KeyError (JStr "method")).
Proof.
  intros self. split; [reflexivity|].
  apply (last_changes_method_missing example.component_id self
           [example.newer_update] example.response [example.other_message]).
  - reflexivity.
  - reflexivity.
  - apply Forall_cons_2; [|apply Forall_nil_2]. split; [|reflexivity].
    apply (bool_decide_eq_true_1 _). vm_compute. reflexivity.
Defined.

Lemma last_changes_malformed_update_witness :
  let self := example.client_that_sent
                [example.newer_update; example.update_without_params] in
  testing_py.delta_states_of example.update_without_params = None ∧
  testing_py._last_component_state_changes example.component_id self
    = Raise (KeyError (JStr "params")).
Proof.
  intros self. split; [reflexivity|].
  apply (last_changes_malformed_update example.component_id self
           example.update_without_params).
  - repeat apply Forall_cons_2; [| |apply Forall_nil_2];
      apply (bool_decide_eq_true_1 _); vm_compute; reflexivity.
  - vm_compute. reflexivity.
  - reflexivity.
Defined.


Lemma last_changes_of_decimal_keys_witness :
  let s := testing_py.create_session example.component_id example.tree in
  NoDup (example.component_id <$> ["root"; "input"]) ∧
  testing_py._last_component_state_changes example.component_id example.client
    = Return (list_to_map [("input", example.newer_delta "input")]).
Proof.
  intros s.
  assert (NoDup (example.component_id <$> ["root"; "input"])) as Hids.
  { apply (bool_decide_eq_true_1 _). vm_compute. reflexivity. }
  split; [exact Hids|].
  apply (last_changes_of_decimal_keys example.component_id example.client s
           example.newer_update ["root"; "input"] example.newer_delta).
  - exact example_sent_has_method.
  - vm_compute. reflexivity.
  - vm_compute. reflexivity.
  - exact Hids.
  - reflexivity.
  - intros x Hx Hshown.
    apply list_elem_of_In in Hx. destruct Hx as [<-|[<-|[]]].
    + by destruct Hshown.
    + vm_compute. reflexivity.
Defined.
